(** * Identity reconciliation: the [/identify] handler of backend/server.js
      and the Firestore form handler, as functions on an explicit store.
      The Firestore profile service with its card and the in-browser
      demonstration of [/identify] follow in modules of their own.

    The PostgreSQL table [contacts] is a list of rows in heap order together
    with the value of the [SERIAL] sequence.  A request is one call of
    [Sql.identify]; [CURRENT_TIMESTAMP] (the start time of the request's
    transaction) is the argument [now].

    Reading conventions, all taken from the source:
    - [findRelatedContacts] and [findContactFamily] query through [pool],
      the writes go through the transaction's own [client].  Inside one
      request the reads therefore see the table as committed before
      [BEGIN]; the writes accumulate and are installed by [COMMIT].
    - the body of [contact_family] is [base UNION linked UNION parent], which
      PostgreSQL reads as [(base UNION linked) UNION parent].  The left
      operand of the outer [UNION] is the non-recursive term of a
      [WITH RECURSIVE] query, and here it names [contact_family] itself;
      PostgreSQL refuses such a statement when it is sent (SQLSTATE 42P19),
      so the promise of [findContactFamily] is rejected on every call.
    - a text that is longer than its [VARCHAR(n)] column makes the [INSERT]
      fail, unless all characters past the [n]th are spaces, in which case
      the first [n] characters are stored.  A string is its sequence of
      characters, none of them NUL.
    - a failed statement throws; the handler answers [ROLLBACK] and status
      500, which leaves the rows as committed before [BEGIN].
    - rows with equal sort keys keep their heap order. *)

From Stdlib Require Import ZArith List String Ascii Bool Lia Sorted Permutation.
Import ListNotations.
Local Open Scope string_scope.
Local Open Scope list_scope.
Local Open Scope Z_scope.

(** ** Values coming from JavaScript *)

(** A request field or a nullable text column: [None] is [undefined] /
    [null] / SQL [NULL]. *)
Definition Text := option string.

(** JavaScript truthiness of such a value: [null], [undefined] and the empty
    string are falsy. *)
Definition truthy (v : Text) : bool :=
  match v with
  | Some s => negb (String.eqb s "")
  | None => false
  end.

(** [xs.map(f).filter(Boolean)] on nullable strings. *)
Fixpoint filter_Boolean (xs : list Text) : list string :=
  match xs with
  | [] => []
  | v :: rest =>
      match v with
      | Some s => if truthy v then s :: filter_Boolean rest else filter_Boolean rest
      | None => filter_Boolean rest
      end
  end.

(** [xs.includes(s)]. *)
Definition includes (xs : list string) (s : string) : bool :=
  existsb (String.eqb s) xs.

(** [[...new Set(xs)]]: a [Set] iterates in insertion order, so the first
    occurrence of every string is kept. *)
Fixpoint Set_insert (seen : list string) (xs : list string) : list string :=
  match xs with
  | [] => seen
  | x :: rest => Set_insert (if includes seen x then seen else seen ++ [x]) rest
  end.

Definition spread_Set (xs : list string) : list string := Set_insert [] xs.

(** [v ? [v] : []]. *)
Definition singleton_if_truthy (v : Text) : list string := filter_Boolean [v].

(** ** Stable sorting, as used for [ORDER BY] *)

Section OrderBy.
Context {A : Type} (before : A -> A -> bool).

Fixpoint place (x : A) (sorted : list A) : list A :=
  match sorted with
  | [] => [x]
  | y :: rest => if before x y then x :: y :: rest else y :: place x rest
  end.

Fixpoint order_by (rows : list A) : list A :=
  match rows with
  | [] => []
  | x :: rest => place x (order_by rest)
  end.
End OrderBy.

(** ** The two roles of a contact *)

Inductive LinkPrecedence := primary | secondary.

(** The stored text, which [ORDER BY link_precedence] and
    [=== 'primary'] compare. *)
Definition precedence_text (p : LinkPrecedence) : string :=
  match p with
  | primary => "primary"
  | secondary => "secondary"
  end.

(** * backend/server.js *)

Module Sql.

(** ** The [contacts] table *)

Record Contact := mkContact {
  id : Z;
  email : Text;
  phone_number : Text;
  linked_id : option Z;
  link_precedence : LinkPrecedence;
  created_at : Z;
  updated_at : Z;
  deleted_at : option Z
}.

Record Db := mkDb {
  contacts : list Contact;
  contacts_id_seq : Z
}.

Definition empty_db : Db := mkDb [] 0.

Definition is_primary (c : Contact) : bool :=
  String.eqb (precedence_text (link_precedence c)) "primary".

Definition is_secondary (c : Contact) : bool :=
  String.eqb (precedence_text (link_precedence c)) "secondary".

Definition not_deleted (c : Contact) : bool :=
  match deleted_at c with
  | None => true
  | Some _ => false
  end.

(** SQL [column = $n]: a comparison with [NULL] on either side is not true. *)
Definition sql_eq_text (column param : Text) : bool :=
  match column, param with
  | Some a, Some b => String.eqb a b
  | _, _ => false
  end.

Definition sql_eq_id (column : option Z) (value : Z) : bool :=
  match column with
  | Some a => Z.eqb a value
  | None => false
  end.

(** [ORDER BY created_at ASC]. *)
Definition created_before (a b : Contact) : bool :=
  Z.leb (created_at a) (created_at b).

(** [ORDER BY link_precedence DESC, created_at ASC]: the greater text
    first, then the earlier row. *)
Definition family_before (a b : Contact) : bool :=
  match String.compare (precedence_text (link_precedence a))
                       (precedence_text (link_precedence b)) with
  | Gt => true
  | Eq => Z.leb (created_at a) (created_at b)
  | Lt => false
  end.

(** [findRelatedContacts(email, phoneNumber)]. *)
Definition findRelatedContacts (email_ phoneNumber : Text) (table : list Contact)
  : list Contact :=
  order_by created_before
    (filter (fun c => (sql_eq_text (email c) email_
                       || sql_eq_text (phone_number c) phoneNumber)
                      && not_deleted c) table).

(** ** The family query *)

(** The body of a [WITH RECURSIVE] query as PostgreSQL parses it: [SELECT]s
    joined by [UNION], which associates to the left.  Of a [SELECT] one
    thing matters here: whether its [FROM] names the query being defined. *)
Inductive WithBody :=
| Select (from_itself : bool)
| Union (lhs rhs : WithBody).

Fixpoint names_itself (body : WithBody) : bool :=
  match body with
  | Select from_itself => from_itself
  | Union lhs rhs => names_itself lhs || names_itself rhs
  end.

(** PostgreSQL runs a query that refers to itself only as
    [non-recursive term UNION recursive term]: the reference may occur in
    the right operand of the outermost [UNION] and nowhere else.  A
    statement with the reference in the left operand is refused with
    "recursive reference to query must not appear within its non-recursive
    term". *)
Definition accepted (body : WithBody) : bool :=
  match body with
  | Select from_itself => negb from_itself
  | Union non_recursive _ => negb (names_itself non_recursive)
  end.

(** Lines 103-121: the base [SELECT] reads [contacts] alone, the other two
    join [contact_family]. *)
Definition contact_family : WithBody :=
  Union (Union (Select false) (Select true)) (Select true).

(** What an accepted statement with these three branches would return.  One
    round of the recursive part: the rows found so far, the visible rows
    linked to one of them, and the visible rows one of them is linked to.
    [family_base] is the base [SELECT]. *)
Definition in_family (family : list Contact) (c : Contact) : bool :=
  existsb (fun cf => Z.eqb (id c) (id cf)) family
  || existsb (fun cf => sql_eq_id (linked_id c) (id cf)) family
  || existsb (fun cf => sql_eq_id (linked_id cf) (id c)) family.

Definition family_round (table family : list Contact) : list Contact :=
  filter (fun c => not_deleted c && in_family family c) table.

Fixpoint family_rounds (n : nat) (table family : list Contact) : list Contact :=
  match n with
  | O => family
  | S n' => family_rounds n' table (family_round table family)
  end.

Definition family_base (contactId : Z) (table : list Contact) : list Contact :=
  filter (fun c => Z.eqb (id c) contactId && not_deleted c) table.

(** [findContactFamily(contactId)]; [None] is the rejected promise. *)
Definition findContactFamily (contactId : Z) (table : list Contact)
  : option (list Contact) :=
  if accepted contact_family
  then Some (order_by family_before
               (family_rounds (List.length table) table
                              (family_base contactId table)))
  else None.

(** ** Writes *)

Definition all_spaces (s : string) : bool :=
  forallb (Ascii.eqb " ") (list_ascii_of_string s).

(** A text on its way into a [VARCHAR(n)] column: stored as it is when it
    has at most [n] characters, cut to [n] characters when the rest is
    spaces only, and refused otherwise ([None]). *)
Definition store_varchar (n : nat) (v : Text) : option Text :=
  match v with
  | None => Some None
  | Some s =>
      if Nat.leb (String.length s) n then Some (Some s)
      else if all_spaces (substring n (String.length s - n)%nat s)
           then Some (Some (substring 0 n s))
           else None
  end.

(** [INSERT INTO contacts (...) VALUES (...) RETURNING *], with [email
    VARCHAR(255)] and [phone_number VARCHAR(20)].  The second component is
    the returned row, [None] when the statement fails.  The length of a
    bound parameter is checked when the statement is planned, before the
    default of [id] draws from the sequence, so a refused row leaves the
    sequence where it was. *)
Definition insert_contact (now : Z) (email_ phone : Text) (linked : option Z)
    (precedence : LinkPrecedence) (db : Db) : Db * option Contact :=
  match store_varchar 255 email_, store_varchar 20 phone with
  | Some stored_email, Some stored_phone =>
      let row := mkContact (contacts_id_seq db + 1) stored_email stored_phone
                           linked precedence now now None in
      (mkDb (contacts db ++ [row]) (contacts_id_seq db + 1), Some row)
  | _, _ => (db, None)
  end.

(** [ROLLBACK]: the rows are those committed before [BEGIN]; the sequence
    stays where the transaction left it. *)
Definition rollback (committed working : Db) : Db :=
  mkDb (contacts committed) (contacts_id_seq working).

Definition update_where_id (target : Z) (set : Contact -> Contact) (db : Db) : Db :=
  mkDb (map (fun c => if Z.eqb (id c) target then set c else c) (contacts db))
       (contacts_id_seq db).

(** [UPDATE contacts SET link_precedence = 'primary', updated_at = CURRENT_TIMESTAMP]. *)
Definition set_primary (now : Z) (c : Contact) : Contact :=
  mkContact (id c) (email c) (phone_number c) (linked_id c) primary
            (created_at c) now (deleted_at c).

(** [UPDATE contacts SET link_precedence = 'secondary', linked_id = $2,
    updated_at = CURRENT_TIMESTAMP]. *)
Definition set_secondary (now : Z) (survivor : Z) (c : Contact) : Contact :=
  mkContact (id c) (email c) (phone_number c) (Some survivor) secondary
            (created_at c) now (deleted_at c).

(** The in-memory assignment [primaryContact.link_precedence = 'primary']. *)
Definition assign_primary (c : Contact) : Contact :=
  mkContact (id c) (email c) (phone_number c) (linked_id c) primary
            (created_at c) (updated_at c) (deleted_at c).

(** ** The handler *)

Record IdentifyResponse := mkResponse {
  primaryContactId : Z;
  emails : list string;
  phoneNumbers : list string;
  secondaryContactIds : list Z
}.

(** The status and the JSON body; of the body of an error only the [error]
    text is kept. *)
Inductive Reply :=
| Status200 (body : IdentifyResponse)
| Status400 (error : string)
| Status500 (error : string).

(** [v && !existing.includes(v)]. *)
Definition is_new (v : Text) (existing : list string) : bool :=
  match v with
  | Some s => truthy v && negb (includes existing s)
  | None => false
  end.

(** [multiplePrimaries.reduce((oldest, current) => ... )] without an initial
    value: the first element starts as [oldest]. *)
Definition reduce_oldest (first : Contact) (rest : list Contact) : Contact :=
  fold_left (fun oldest current =>
               if Z.ltb (created_at current) (created_at oldest)
               then current else oldest)
            rest first.

(** The [for] loop over [multiplePrimaries]. *)
Definition demote_others (now : Z) (oldest : Contact)
    (multiplePrimaries : list Contact) (db : Db) : Db :=
  fold_left (fun d contact =>
               if negb (Z.eqb (id contact) (id oldest))
               then update_where_id (id contact) (set_secondary now (id oldest)) d
               else d)
            multiplePrimaries db.

Definition validation_message : string :=
  "At least one of email or phoneNumber must be provided".

Definition server_error_message : string := "Internal server error".

(** Lines 173-188: the first primary among the matches, or else the first
    match, which is then made primary in the table and in memory.  The
    in-memory row is an element of [existingContacts], so the later filter
    for primaries sees the assignment. *)
Definition choose_primary (now : Z) (first : Contact) (others : list Contact)
    (db : Db) : Contact * list Contact * Db :=
  match find is_primary (first :: others) with
  | Some p => (p, first :: others, db)
  | None =>
      if negb (is_primary first)
      then (assign_primary first, assign_primary first :: others,
            update_where_id (id first) (set_primary now) db)
      else (first, first :: others, db)
  end.

(** Lines 193-215: one secondary for the fragments the family lacks; [None]
    when its [INSERT] fails. *)
Definition attach_new (now : Z) (email_ phoneNumber : Text)
    (primaryContact : Contact) (familyContacts : list Contact) (db : Db)
  : Db * option (list Contact) :=
  let existingEmails := filter_Boolean (map email familyContacts) in
  let existingPhones := filter_Boolean (map phone_number familyContacts) in
  let needNewContact :=
    is_new email_ existingEmails || is_new phoneNumber existingPhones in
  if needNewContact then
    match insert_contact now
            (if is_new email_ existingEmails then email_ else None)
            (if is_new phoneNumber existingPhones then phoneNumber else None)
            (Some (id primaryContact)) secondary db with
    | (db', Some newSecondary) => (db', Some (familyContacts ++ [newSecondary]))
    | (db', None) => (db', None)
    end
  else (db, Some familyContacts).

(** Lines 217-235: with more than one primary among the matches, the oldest
    stays and the others become its secondaries. *)
Definition consolidate (now : Z) (existingContacts : list Contact)
    (primaryContact : Contact) (db : Db) : Db * Contact :=
  let multiplePrimaries := filter is_primary existingContacts in
  match multiplePrimaries with
  | p0 :: ((_ :: _) as more) =>
      let oldestPrimary := reduce_oldest p0 more in
      (demote_others now oldestPrimary multiplePrimaries db, oldestPrimary)
  | _ => (db, primaryContact)
  end.

(** Lines 239-251. *)
Definition assemble (primaryContact : Contact) (familyContacts : list Contact)
  : IdentifyResponse :=
  mkResponse (id primaryContact)
             (spread_Set (filter_Boolean (map email familyContacts)))
             (spread_Set (filter_Boolean (map phone_number familyContacts)))
             (map id (filter is_secondary familyContacts)).

(** Lines 152-266: the handler from the point where [existingContacts] is
    known.  [db] is the table as committed when the writes are made; a
    statement that fails sends the handler through [ROLLBACK] to the reply
    with status 500. *)
Definition identify_after_read (now : Z) (email_ phoneNumber : Text)
    (existingContacts : list Contact) (db : Db) : Db * Reply :=
  match existingContacts with
  | [] =>
      match insert_contact now email_ phoneNumber None primary db with
      | (db1, Some newContact) =>
          (db1, Status200 (mkResponse (id newContact)
                                      (singleton_if_truthy email_)
                                      (singleton_if_truthy phoneNumber)
                                      []))
      | (db1, None) => (rollback db db1, Status500 server_error_message)
      end
  | first :: others =>
      let '(primaryContact, existingContacts1, db1) :=
        choose_primary now first others db in
      match findContactFamily (id primaryContact) (contacts db) with
      | None => (rollback db db1, Status500 server_error_message)
      | Some familyContacts =>
          match attach_new now email_ phoneNumber primaryContact familyContacts db1 with
          | (db2, None) => (rollback db db2, Status500 server_error_message)
          | (db2, Some familyContacts1) =>
              let '(db3, primaryContact1) :=
                consolidate now existingContacts1 primaryContact db2 in
              (db3, Status200 (assemble primaryContact1 familyContacts1))
          end
      end
  end.

(** [app.post('/identify', ...)]. *)
Definition identify (now : Z) (email_ phoneNumber : Text) (db : Db) : Db * Reply :=
  if negb (truthy email_) && negb (truthy phoneNumber) then
    (db, Status400 validation_message)
  else
    identify_after_read now email_ phoneNumber
      (findRelatedContacts email_ phoneNumber (contacts db)) db.

(** Requests served one after the other. *)
Definition Request := (Z * Text * Text)%type.

Definition serve (db : Db) (r : Request) : Db :=
  let '(now, e, p) := r in fst (identify now e p db).

Definition serve_all (rs : list Request) (db : Db) : Db := fold_left serve rs db.

End Sql.
(** * The Firestore contact service and the form handler that uses it *)

Module Firestore.

Record FirebaseContact := mkDoc {
  id : string;
  email : Text;
  phoneNumber : Text;
  linkedId : option string;
  linkPrecedence : LinkPrecedence;
  userId : string;
  createdAt : Z;
  updatedAt : Z
}.

(** The [contacts] collection. *)
Definition Collection := list FirebaseContact.

Definition is_primary_doc (d : FirebaseContact) : bool :=
  String.eqb (precedence_text (linkPrecedence d)) "primary".

Definition is_secondary_doc (d : FirebaseContact) : bool :=
  String.eqb (precedence_text (linkPrecedence d)) "secondary".

(** [where(field, '==', value)]: a document without the field does not match. *)
Definition field_eq (field : Text) (value : string) : bool :=
  match field with
  | Some s => String.eqb s value
  | None => false
  end.

Definition name_before (a b : FirebaseContact) : bool := String.leb (id a) (id b).

Definition createdAt_before (a b : FirebaseContact) : bool :=
  Z.leb (createdAt a) (createdAt b).

(** [getDocs] of a query without [orderBy]: the matching documents by
    document name. *)
Definition getDocs (matches : FirebaseContact -> bool) (col : Collection)
  : list FirebaseContact :=
  order_by name_before (filter matches col).

(** [x || undefined] on a form field. *)
Definition form_field (x : string) : Text :=
  if String.eqb x "" then None else Some x.

(** [x || y] on a form field and a stored field. *)
Definition or_else (x : string) (y : Text) : Text :=
  if String.eqb x "" then y else Some x.

Definition is_undefined (v : Text) : bool :=
  match v with
  | None => true
  | Some _ => false
  end.

(** The loops of [findRelatedContacts] that push a document unless one with
    the same id is already there. *)
Definition push_unique (acc docs : list FirebaseContact) : list FirebaseContact :=
  fold_left (fun all contact =>
               if existsb (fun c => String.eqb (id c) (id contact)) all
               then all else all ++ [contact])
            docs acc.

(** What the form shows: the result, or one of the toasts. *)
Record ReconcileResult := mkResult {
  primaryContactId : option string;
  emails : list string;
  phoneNumbers : list string;
  secondaryContactIds : list string
}.

Inductive Outcome :=
| Result (r : ReconcileResult)
| ValidationError
| AuthenticationError
| Failed.

Section Service.

(** The Firestore instance comes from [./config], which is not among the
    sources.  Its setting [ignoreUndefinedProperties] decides whether a
    write drops fields whose value is [undefined] or throws. *)
Variable ignoreUndefinedProperties : bool.

Definition write_allowed (fields : list Text) : bool :=
  ignoreUndefinedProperties || negb (existsb is_undefined fields).

(** [FirebaseContactService.createContact]; [autoId] is the id [addDoc]
    generates.  [None] is the [{ data: null, error }] result. *)
Definition createContact (now : Z) (autoId : string) (email_ phone : Text)
    (precedence : LinkPrecedence) (uid : string) (col : Collection)
  : option (Collection * FirebaseContact) :=
  if write_allowed [email_; phone] then
    let d := mkDoc autoId email_ phone None precedence uid now now in
    Some (col ++ [d], d)
  else None.

Definition merge_field (update old : Text) : Text :=
  match update with
  | Some _ => update
  | None => old
  end.

(** [FirebaseContactService.updateContact] with the fields [email] and
    [phoneNumber]. *)
Definition updateContact (now : Z) (target : string) (email_ phone : Text)
    (col : Collection) : option Collection :=
  if write_allowed [email_; phone] then
    Some (map (fun d =>
                 if String.eqb (id d) target
                 then mkDoc (id d) (merge_field email_ (email d))
                            (merge_field phone (phoneNumber d))
                            (linkedId d) (linkPrecedence d) (userId d)
                            (createdAt d) now
                 else d) col)
  else None.

(** [FirebaseContactService.getContactsByUser]. *)
Definition getContactsByUser (uid : string) (col : Collection)
  : list FirebaseContact :=
  order_by createdAt_before (getDocs (fun d => String.eqb (userId d) uid) col).

(** [FirebaseContactService.findRelatedContacts]. *)
Definition findRelatedContacts (email_ phone : Text) (uid : string)
    (col : Collection) : list FirebaseContact :=
  let of_user d := if String.eqb uid "" then true else String.eqb (userId d) uid in
  let emailDocs :=
    match email_ with
    | Some e => if truthy email_
                then getDocs (fun d => field_eq (email d) e && of_user d) col
                else []
    | None => []
    end in
  let phoneDocs :=
    match phone with
    | Some p => if truthy phone
                then getDocs (fun d => field_eq (phoneNumber d) p && of_user d) col
                else []
    | None => []
    end in
  push_unique (push_unique [] emailDocs) phoneDocs.

(** [FirebaseIdentityReconciliation.handleSubmit]; [user] is the signed-in
    user's [uid], if any. *)
Definition handleSubmit (now : Z) (autoId : string) (user : option string)
    (formEmail formPhone : string) (col : Collection) : Collection * Outcome :=
  if String.eqb formEmail "" && String.eqb formPhone "" then (col, ValidationError)
  else
    match user with
    | None => (col, AuthenticationError)
    | Some uid =>
        let existingContacts :=
          findRelatedContacts (form_field formEmail) (form_field formPhone) uid col in
        let written :=
          match existingContacts with
          | existingContact :: _ =>
              updateContact now (id existingContact)
                (or_else formEmail (email existingContact))
                (or_else formPhone (phoneNumber existingContact)) col
          | [] =>
              option_map fst
                (createContact now autoId (form_field formEmail)
                   (form_field formPhone) primary uid col)
          end in
        match written with
        | None => (col, Failed)
        | Some col1 =>
            let allContacts := getContactsByUser uid col1 in
            let primaryContact :=
              match find is_primary_doc allContacts with
              | Some c => Some c
              | None => hd_error allContacts
              end in
            let secondaryContacts := filter is_secondary_doc allContacts in
            (col1,
             Result (mkResult
                       (option_map id primaryContact)
                       (spread_Set (filter_Boolean (map email allContacts)))
                       (spread_Set (filter_Boolean (map phoneNumber allContacts)))
                       (map id secondaryContacts)))
        end
    end.

End Service.

End Firestore.

(** * The Firestore profile service and the profile card that uses it *)

Module Profiles.

(** A document of the [profiles] collection; a field that the document does
    not have is [None]. *)
Record FirebaseProfile := mkProfile {
  id : string;
  fullName : Text;
  avatarUrl : Text;
  role : Text;
  createdAt : Z;
  updatedAt : Z
}.

(** The collection, by document name. *)
Definition Store := string -> option FirebaseProfile.

(** A key of the [Partial<FirebaseProfile>] passed to a write: left out,
    present with the value [undefined], or present with a string. *)
Inductive Given := Absent | Undefined | Value (s : string).

(** The keys of [profileData] that reach the document; [id], [createdAt]
    and [updatedAt] are set after the spread and replace whatever it
    brought. *)
Record ProfileData := mkData {
  givenFullName : Given;
  givenAvatarUrl : Given;
  givenRole : Given
}.

Definition is_undefined (g : Given) : bool :=
  match g with
  | Undefined => true
  | _ => false
  end.

(** [setDoc(..., { merge: true })] on one field. *)
Definition merged (g : Given) (old : Text) : Text :=
  match g with
  | Value s => Some s
  | _ => old
  end.


Section Service.

(** As for the contact service: the setting of the Firestore instance that
    makes a write drop [undefined] values instead of throwing. *)
Variable ignoreUndefinedProperties : bool.

(** [FirebaseProfileService.createOrUpdateProfile]; [None] is the
    [{ error }] result.  [accepted] tells whether Firestore carries the
    write out: its security rules or the network may refuse it, and
    [setDoc] then throws. *)
Definition createOrUpdateProfile (accepted : bool) (now : Z) (userId : string)
    (profileData : ProfileData) (store : Store) : option Store :=
  if accepted
     && (ignoreUndefinedProperties
         || negb (is_undefined (givenFullName profileData)
                  || is_undefined (givenAvatarUrl profileData)
                  || is_undefined (givenRole profileData)))
  then
    let old := store userId in
    let field (get : FirebaseProfile -> Text) : Text :=
      match old with
      | Some d => get d
      | None => None
      end in
    let written :=
      mkProfile userId
                (merged (givenFullName profileData) (field fullName))
                (merged (givenAvatarUrl profileData) (field avatarUrl))
                (merged (givenRole profileData) (field role))
                now now in
    Some (fun name => if String.eqb name userId then Some written else store name)
  else None.

(** [FirebaseProfileService.getProfile]: [Some data] with the data of the
    document or [null]; [None] is the [{ error }] result of a read that
    Firestore does not answer. *)
Definition getProfile (answered : bool) (userId : string) (store : Store)
  : option (option FirebaseProfile) :=
  if answered then Some (store userId) else None.

(** The signed-in user, as far as the card reads it. *)
Record User := mkUser {
  uid : string;
  displayName : Text;
  photoURL : Text
}.

(** The state of the card, with the descriptions of the toasts shown. *)
Record Card := mkCard {
  profile : option FirebaseProfile;
  fullNameInput : string;
  loading : bool;
  toasts : list string
}.

(** [v || ''] *)
Definition or_empty (v : Text) : string :=
  match v with
  | Some s => s
  | None => ""
  end.

(** [FirebaseUserProfile.fetchProfile].  After trying to create the default
    profile it calls itself, whatever the write returned.  [round] counts
    these calls; [reads round] and [writes round] tell whether Firestore
    serves the read and the write of that call, [clock round] is the time of
    its write.  [fuel] bounds the calls, [None] is running out. *)
Fixpoint fetchProfile (fuel : nat) (reads writes : nat -> bool) (clock : nat -> Z)
    (round : nat) (user : option User) (store : Store) (card : Card)
  : option (Store * Card) :=
  match fuel with
  | O => None
  | S fuel' =>
      match user with
      | None => Some (store, card)
      | Some u =>
          match getProfile (reads round) (uid u) store with
          | None =>
              Some (store,
                    mkCard (profile card) (fullNameInput card) false
                           (toasts card ++ ["Failed to load profile"]))
          | Some (Some data) =>
              Some (store,
                    mkCard (Some data) (or_empty (fullName data)) false (toasts card))
          | Some None =>
              let store1 :=
                match createOrUpdateProfile (writes round) (clock round) (uid u)
                        (mkData (Value (or_empty (displayName u)))
                                (Value (or_empty (photoURL u)))
                                (Value "user"))
                        store with
                | Some s => s
                | None => store
                end in
              match fetchProfile fuel' reads writes clock (S round) user store1 card with
              | Some (s, c) =>
                  Some (s, mkCard (profile c) (fullNameInput c) false (toasts c))
              | None => None
              end
          end
      end
  end.

End Service.

End Profiles.
(** * The in-browser demonstration of [/identify] (IdentityReconciliation) *)

Module Mock.

Record Contact := mkContact {
  id : Z;
  email : Text;
  phoneNumber : Text;
  linkedId : option Z;
  linkPrecedence : LinkPrecedence;
  createdAt : string;
  updatedAt : string;
  deletedAt : option string
}.

Record IdentifyResponse := mkResponse {
  primaryContactId : Z;
  emails : list string;
  phoneNumbers : list string;
  secondaryContactIds : list Z
}.

Definition is_primary (c : Contact) : bool :=
  String.eqb (precedence_text (linkPrecedence c)) "primary".

Definition is_secondary (c : Contact) : bool :=
  String.eqb (precedence_text (linkPrecedence c)) "secondary".

(** [x && field === x] for a text typed into the form. *)
Definition typed_equals (x : string) (field : Text) : bool :=
  negb (String.eqb x "")
  && match field with
     | Some s => String.eqb s x
     | None => false
     end.

(** [x || undefined] *)
Definition or_undefined (x : string) : Text :=
  if String.eqb x "" then None else Some x.

(** [c.id === other] where [other] may be [undefined]. *)
Definition id_is (c : Contact) (other : option Z) : bool :=
  match other with
  | Some l => Z.eqb (id c) l
  | None => false
  end.

(** [x && !known.includes(x)] *)
Definition is_new (x : string) (known : list string) : bool :=
  negb (String.eqb x "") && negb (includes known x).

(** The matches of the form against the contacts held by the component. *)
Definition matchingContacts (email_ phoneNumber_ : string) (contacts : list Contact)
  : list Contact :=
  filter (fun contact => typed_equals email_ (email contact)
                         || typed_equals phoneNumber_ (phoneNumber contact))
         contacts.

(** The primary among the matches, else the contact the first match is
    linked to, else the first match. *)
Definition primaryOf (first : Contact) (others contacts : list Contact) : Contact :=
  match find is_primary (first :: others) with
  | Some c => c
  | None =>
      match find (fun c => id_is c (linkedId first)) contacts with
      | Some linkedContact => linkedContact
      | None => first
      end
  end.

Definition allRelatedContacts (primaryContact : Contact)
    (matching contacts : list Contact) : list Contact :=
  filter (fun c => Z.eqb (id c) (id primaryContact)
                   || id_is primaryContact (linkedId c)
                   || (is_secondary c
                       && existsb (fun mc => Z.eqb (id mc) (id c)) matching))
         contacts.

(** [handleIdentify], from the filter to [setResponse]; [now] is
    [new Date().toISOString()].  The result is the contacts given to
    [setContacts] (or the old ones) and the response. *)
Definition handleIdentify (now : string) (email_ phoneNumber_ : string)
    (contacts : list Contact) : list Contact * IdentifyResponse :=
  match matchingContacts email_ phoneNumber_ contacts with
  | [] =>
      let newContact :=
        mkContact (Z.of_nat (List.length contacts) + 1)
                  (or_undefined email_) (or_undefined phoneNumber_)
                  None primary now now None in
      (contacts ++ [newContact],
       mkResponse (id newContact)
                  (if String.eqb email_ "" then [] else [email_])
                  (if String.eqb phoneNumber_ "" then [] else [phoneNumber_])
                  [])
  | first :: others =>
      let primaryContact := primaryOf first others contacts in
      let allRelated := allRelatedContacts primaryContact (first :: others) contacts in
      let emails_ := spread_Set (filter_Boolean (map email allRelated)) in
      let phoneNumbers_ := spread_Set (filter_Boolean (map phoneNumber allRelated)) in
      let secondaryContactIds_ := map id (filter is_secondary allRelated) in
      if is_new email_ emails_ || is_new phoneNumber_ phoneNumbers_ then
        let newSecondaryContact :=
          mkContact (Z.of_nat (List.length contacts) + 1)
                    (if is_new email_ emails_ then Some email_ else None)
                    (if is_new phoneNumber_ phoneNumbers_ then Some phoneNumber_ else None)
                    (Some (id primaryContact)) secondary now now None in
        (contacts ++ [newSecondaryContact],
         mkResponse (id primaryContact)
                    (if is_new email_ emails_ then emails_ ++ [email_] else emails_)
                    (if is_new phoneNumber_ phoneNumbers_
                     then phoneNumbers_ ++ [phoneNumber_] else phoneNumbers_)
                    (secondaryContactIds_ ++ [id newSecondaryContact]))
      else
        (contacts,
         mkResponse (id primaryContact) emails_ phoneNumbers_ secondaryContactIds_)
  end.

(** The contacts the component starts with. *)
Definition initialContacts : list Contact :=
  [mkContact 1 (Some "john@example.com") (Some "1234567890") None primary
             "2024-01-01T00:00:00Z" "2024-01-01T00:00:00Z" None;
   mkContact 2 (Some "john.doe@example.com") None (Some 1) secondary
             "2024-01-02T00:00:00Z" "2024-01-02T00:00:00Z" None].

End Mock.

(** * Vocabulary of the claims *)

Import Sql.



(** [a] is created no later than [b]. *)
Definition earlier (a b : Contact) : Prop := created_before a b = true.

(** The validation guard of the handler. *)
Definition rejected (e p : Text) : bool := negb (truthy e) && negb (truthy p).

(** The text has at most [n] characters, so a [VARCHAR(n)] column stores it
    as it is. *)
Definition fits (n : nat) (v : Text) : bool :=
  match v with
  | Some s => Nat.leb (String.length s) n
  | None => true
  end.


(** The primary-key discipline of the table: ids are unique and none is
    ahead of the sequence. *)
Definition ids_in_sequence (db : Db) : Prop :=
  NoDup (map id (contacts db))
  /\ Forall (fun c => id c <= contacts_id_seq db) (contacts db).

(** [linked_id INTEGER REFERENCES contacts(id)]: every link names a row. *)
Definition links_resolve (table : list Contact) : Prop :=
  forall c l, In c table -> linked_id c = Some l ->
              exists d, In d table /\ id d = l.

(** The row holds a non-empty email or a non-empty phone number. *)
Definition holds_a_fragment (c : Contact) : bool :=
  truthy (email c) || truthy (phone_number c).


(** Two requests for the same fragments whose [SELECT]s of line 94 are both
    answered before either reaches its writes: both read the table [db],
    then the first runs to its end, then the second. *)
Definition identify_twice_interleaved (now1 now2 : Z) (email_ phoneNumber : Text)
    (db : Db) : Db * Reply * Reply :=
  if negb (truthy email_) && negb (truthy phoneNumber) then
    (db, Status400 validation_message, Status400 validation_message)
  else
    let existingContacts1 := findRelatedContacts email_ phoneNumber (contacts db) in
    let existingContacts2 := findRelatedContacts email_ phoneNumber (contacts db) in
    let '(db1, reply1) :=
      identify_after_read now1 email_ phoneNumber existingContacts1 db in
    let '(db2, reply2) :=
      identify_after_read now2 email_ phoneNumber existingContacts2 db1 in
    (db2, reply1, reply2).

(** The documents [Firestore.findRelatedContacts] asks for: the email or
    the phone number of the request, when non-empty, equals the stored one,
    and the document belongs to the user when a user id is given. *)
Definition doc_matches (e p : Text) (uid : string) (d : Firestore.FirebaseContact)
  : bool :=
  (match e with
   | Some s => truthy e && Firestore.field_eq (Firestore.email d) s
   | None => false
   end
   || match p with
      | Some s => truthy p && Firestore.field_eq (Firestore.phoneNumber d) s
      | None => false
      end)
  && (String.eqb uid "" || String.eqb (Firestore.userId d) uid).

(** Two writes of profile data seen as one: a key of the later write wins
    when it carries a string, else the key of the earlier write stands. *)
Definition later_wins (later earlier : Profiles.Given) : Profiles.Given :=
  match later with
  | Profiles.Value _ => later
  | _ => earlier
  end.

Definition combined_data (later earlier : Profiles.ProfileData) : Profiles.ProfileData :=
  Profiles.mkData
    (later_wins (Profiles.givenFullName later) (Profiles.givenFullName earlier))
    (later_wins (Profiles.givenAvatarUrl later) (Profiles.givenAvatarUrl earlier))
    (later_wins (Profiles.givenRole later) (Profiles.givenRole earlier)).

(** The field of a stored profile, [None] when there is no profile. *)
Definition stored_field (get : Profiles.FirebaseProfile -> Text)
    (old : option Profiles.FirebaseProfile) : Text :=
  match old with
  | Some d => get d
  | None => None
  end.

(** The contacts of the demonstration are numbered 1, 2, ... in order. *)
Definition mock_numbered (contacts : list Mock.Contact) : Prop :=
  map Mock.id contacts
  = map (fun i => Z.of_nat i + 1) (List.seq 0 (List.length contacts)).

(** Every [linkedId] of the demonstration names one of its contacts. *)
Definition mock_links_inside (contacts : list Mock.Contact) : Prop :=
  forall c l, In c contacts -> Mock.linkedId c = Some l ->
              exists d, In d contacts /\ Mock.id d = l.

(** * Stores used in the examples *)

Definition mail_a : Text := Some "a@x.com".
Definition mail_c : Text := Some "c@x.com".
Definition phone_b : Text := Some "111".
Definition phone_d : Text := Some "222".



(** A phone number of 21 characters. *)
Definition phone_long : Text := Some "123456789012345678901".

(** Two unrelated primaries, created by one request each: 1 holds the
    email, 2 holds the phone. *)
Definition db_two_primaries : Db :=
  serve_all [(1, mail_a, None); (2, None, phone_b)] empty_db.

(** One primary holding [mail_a] and [phone_b], created by one request, in
    the table and in the collection of user [u1]. *)
Definition db_one_primary : Db := serve_all [(1, mail_a, phone_b)] empty_db.

Definition col_one_primary : Firestore.Collection :=
  fst (Firestore.handleSubmit false 1 "k1" (Some "u1") "a@x.com" "111" []).

(** Tables with secondaries.  No request to [/identify] creates a
    secondary, so these rows are written down as another writer of the table
    would have left them.

    Contact 1 holds the email; contact 2 is its secondary and holds the
    phone. *)
Definition db_secondary_alone : Db :=
  mkDb [mkContact 1 mail_a None None primary 1 1 None;
        mkContact 2 None phone_b (Some 1) secondary 2 2 None] 2.

(** Primary 1 holds [mail_a]; primary 2 holds [phone_b] and has the
    secondary 3, which holds [mail_c]. *)
Definition db_family_and_primary : Db :=
  mkDb [mkContact 1 mail_a None None primary 1 1 None;
        mkContact 2 None phone_b None primary 2 2 None;
        mkContact 3 mail_c None (Some 2) secondary 3 3 None] 3.

(** Contact 1 holds [mail_a] and was soft-deleted at time 9; contact 2 holds
    [phone_b]. *)
Definition db_with_deleted : Db :=
  mkDb [mkContact 1 mail_a None None primary 1 1 (Some 9);
        mkContact 2 None phone_b None primary 2 2 None] 2.

(** A profile store with the profile of user [u1] only. *)
Definition store_one_profile : Profiles.Store :=
  fun name =>
    if String.eqb name "u1"
    then Some (Profiles.mkProfile "u1" (Some "Ann") (Some "") (Some "user") 1 1)
    else None.

(** An oracle that says the same of every call. *)
Definition always (b : bool) : nat -> bool := fun _ => b.
(** * Facts about the model *)

(** ** The example stores, row by row *)

Example db_two_primaries_rows :
  contacts db_two_primaries
  = [mkContact 1 mail_a None None primary 1 1 None;
     mkContact 2 None phone_b None primary 2 2 None].
Proof. reflexivity. Qed.

Example db_one_primary_rows :
  contacts db_one_primary = [mkContact 1 mail_a phone_b None primary 1 1 None]
  /\ col_one_primary
     = [Firestore.mkDoc "k1" mail_a phone_b None primary "u1" 1 1].
Proof. split; reflexivity. Qed.

(** ** [ORDER BY] returns the same rows, sorted *)

Section OrderByFacts.
Context {A : Type} (before : A -> A -> bool).

Lemma place_In (x y : A) (l : list A) :
  In y (place before x l) <-> y = x \/ In y l.
Proof.
  induction l as [|z l IH]; simpl.
  - intuition.
  - destruct (before x z); simpl; rewrite ?IH; intuition.
Qed.

Lemma order_by_In (y : A) (l : list A) :
  In y (order_by before l) <-> In y l.
Proof.
  induction l as [|x l IH]; simpl; [tauto|].
  rewrite place_In, IH. intuition.
Qed.

Lemma order_by_length (l : list A) :
  List.length (order_by before l) = List.length l.
Proof.
  assert (P : forall x m, List.length (place before x m) = S (List.length m)).
  { intros x m. induction m as [|z m IH]; simpl; [reflexivity|].
    destruct (before x z); simpl; now rewrite ?IH. }
  induction l as [|x l IH]; simpl; [reflexivity|].
  now rewrite P, IH.
Qed.

Hypothesis before_total : forall a b, before a b = false -> before b a = true.
Hypothesis before_trans :
  forall a b c, before a b = true -> before b c = true -> before a c = true.

Let ordered := StronglySorted (fun a b => before a b = true).

Lemma place_ordered (x : A) (l : list A) : ordered l -> ordered (place before x l).
Proof.
  induction 1 as [|z l Hl IH Hz]; simpl.
  - repeat constructor.
  - destruct (before x z) eqn:E.
    + constructor; [now constructor|].
      constructor; [exact E|].
      rewrite Forall_forall in *. eauto.
    + constructor; [exact IH|].
      rewrite Forall_forall in *. intros y Hy.
      apply place_In in Hy. destruct Hy as [->|Hy]; auto.
Qed.

Lemma order_by_ordered (l : list A) : ordered (order_by before l).
Proof.
  induction l as [|x l IH]; simpl; [constructor|].
  now apply place_ordered.
Qed.
End OrderByFacts.

(** ** The match query *)

Lemma findRelatedContacts_sorted (e p : Text) (table : list Contact) :
  StronglySorted earlier (findRelatedContacts e p table).
Proof.
  unfold findRelatedContacts, earlier. apply order_by_ordered.
  - unfold created_before. intros a b H.
    apply Z.leb_gt in H. apply Z.leb_le. lia.
  - unfold created_before. intros a b c H1 H2.
    apply Z.leb_le in H1, H2. apply Z.leb_le. lia.
Qed.

Lemma findRelatedContacts_In (e p : Text) (table : list Contact) (c : Contact) :
  In c (findRelatedContacts e p table) ->
  In c table /\ not_deleted c = true
  /\ sql_eq_text (email c) e || sql_eq_text (phone_number c) p = true.
Proof.
  unfold findRelatedContacts. rewrite order_by_In, filter_In.
  rewrite andb_true_iff. tauto.
Qed.



Lemma truthy_matches_itself (v : Text) : truthy v = true -> sql_eq_text v v = true.
Proof.
  destruct v as [s|]; [|discriminate]. intros _. apply String.eqb_refl.
Qed.

Lemma findRelatedContacts_finds (e p : Text) (table : list Contact) (c : Contact) :
  In c table -> not_deleted c = true ->
  sql_eq_text (email c) e || sql_eq_text (phone_number c) p = true ->
  findRelatedContacts e p table <> [].
Proof.
  intros Hin Hd Hm.
  assert (H : In c (findRelatedContacts e p table)).
  { unfold findRelatedContacts. rewrite order_by_In, filter_In.
    rewrite Hm, Hd. auto. }
  intros E. rewrite E in H. exact H.
Qed.


(** ** Texts and columns *)

Lemma fits_stored (n : nat) (v : Text) :
  fits n v = true -> store_varchar n v = Some v.
Proof.
  destruct v as [s|]; simpl; [intros ->|]; reflexivity.
Qed.

(** What a column stores of a non-empty text is not empty. *)
Lemma store_varchar_truthy (n : nat) (v stored : Text) :
  n <> O -> store_varchar n v = Some stored -> truthy stored = truthy v.
Proof.
  intros Hn. destruct v as [s|]; simpl; [|now intros [= <-]].
  destruct (Nat.leb (String.length s) n) eqn:E; [now intros [= <-]|].
  destruct (all_spaces _); [|discriminate]. intros [= <-].
  destruct n as [|n]; [contradiction|].
  destruct s as [|a s]; [discriminate|reflexivity].
Qed.

Lemma rejected_false_fragment (e p : Text) :
  rejected e p = false -> truthy e || truthy p = true.
Proof.
  unfold rejected. destruct (truthy e), (truthy p); simpl; auto.
Qed.

(** ** The handler, outcome by outcome *)

(** PostgreSQL refuses the family query whatever the table holds. *)
Lemma findContactFamily_refused (contactId : Z) (table : list Contact) :
  findContactFamily contactId table = None.
Proof. reflexivity. Qed.

Lemma choose_primary_seq (now : Z) (first : Contact) (others : list Contact) (db : Db) :
  contacts_id_seq (snd (choose_primary now first others db)) = contacts_id_seq db.
Proof.
  unfold choose_primary. destruct (find is_primary (first :: others)); [reflexivity|].
  destruct (negb (is_primary first)); reflexivity.
Qed.

Lemma identify_rejected (now : Z) (e p : Text) (db : Db) :
  rejected e p = true -> identify now e p db = (db, Status400 validation_message).
Proof.
  unfold identify, rejected. now intros ->.
Qed.

(** A request that matches is rolled back at line 191. *)
Lemma identify_matched (now : Z) (e p : Text) (db : Db) :
  rejected e p = false ->
  findRelatedContacts e p (contacts db) <> [] ->
  identify now e p db = (db, Status500 server_error_message).
Proof.
  intros Hv Hm. unfold identify. fold (rejected e p). rewrite Hv.
  destruct (findRelatedContacts e p (contacts db)) as [|first others];
    [contradiction|].
  unfold identify_after_read.
  pose proof (choose_primary_seq now first others db) as Hs.
  destruct (choose_primary now first others db) as [[pc ex] db1].
  rewrite findContactFamily_refused. simpl in Hs.
  unfold rollback. rewrite Hs. now destruct db.
Qed.

Lemma identify_meets_contact (now : Z) (e p : Text) (db : Db) (c : Contact) :
  rejected e p = false ->
  In c (contacts db) -> not_deleted c = true ->
  sql_eq_text (email c) e || sql_eq_text (phone_number c) p = true ->
  identify now e p db = (db, Status500 server_error_message).
Proof.
  intros Hv Hin Hd Hm. apply identify_matched; [exact Hv|].
  now apply (findRelatedContacts_finds e p _ c).
Qed.

(** A request that matches nothing inserts a primary, if the columns take
    the fragments. *)
Lemma identify_fresh (now : Z) (e p : Text) (db : Db) :
  rejected e p = false ->
  findRelatedContacts e p (contacts db) = [] ->
  identify now e p db
  = match store_varchar 255 e, store_varchar 20 p with
    | Some stored_email, Some stored_phone =>
        (mkDb (contacts db
               ++ [mkContact (contacts_id_seq db + 1) stored_email stored_phone
                             None primary now now None])
              (contacts_id_seq db + 1),
         Status200 (mkResponse (contacts_id_seq db + 1) (singleton_if_truthy e)
                               (singleton_if_truthy p) []))
    | _, _ => (db, Status500 server_error_message)
    end.
Proof.
  intros Hv Hm. unfold identify. fold (rejected e p). rewrite Hv, Hm.
  unfold identify_after_read, insert_contact, rollback.
  destruct (store_varchar 255 e); [destruct (store_varchar 20 p)|];
    try reflexivity; now destruct db.
Qed.

(** Every request either leaves the store as it is and is not answered with
    status 200, or matched nothing and appends one primary. *)
Lemma identify_outcome (now : Z) (e p : Text) (db : Db) :
  (fst (identify now e p db) = db
   /\ forall body, snd (identify now e p db) <> Status200 body)
  \/ exists stored_email stored_phone,
       rejected e p = false
       /\ findRelatedContacts e p (contacts db) = []
       /\ store_varchar 255 e = Some stored_email
       /\ store_varchar 20 p = Some stored_phone
       /\ identify now e p db
          = (mkDb (contacts db
                   ++ [mkContact (contacts_id_seq db + 1) stored_email stored_phone
                                 None primary now now None])
                  (contacts_id_seq db + 1),
             Status200 (mkResponse (contacts_id_seq db + 1) (singleton_if_truthy e)
                                   (singleton_if_truthy p) [])).
Proof.
  destruct (rejected e p) eqn:Hv.
  { left. rewrite identify_rejected by exact Hv. split; [reflexivity|discriminate]. }
  destruct (findRelatedContacts e p (contacts db)) as [|first others] eqn:Hm.
  - rewrite identify_fresh by assumption.
    destruct (store_varchar 255 e) as [se|] eqn:He;
      [destruct (store_varchar 20 p) as [sp|] eqn:Hp|].
    + right. exists se, sp. auto.
    + left. split; [reflexivity|discriminate].
    + left. split; [reflexivity|discriminate].
  - left. rewrite identify_matched; [split; [reflexivity|discriminate]|exact Hv|].
    rewrite Hm. discriminate.
Qed.

(** No request rewrites a stored row. *)
Lemma identify_keeps_row (now : Z) (e p : Text) (db : Db) (i : nat) (c : Contact) :
  nth_error (contacts db) i = Some c ->
  nth_error (contacts (fst (identify now e p db))) i = Some c.
Proof.
  intros H.
  destruct (identify_outcome now e p db) as [[-> _]|(se & sp & _ & _ & _ & _ & ->)];
    [exact H|].
  simpl. rewrite nth_error_app1; [exact H|].
  apply nth_error_Some. congruence.
Qed.

Lemma identify_keeps_In (now : Z) (e p : Text) (db : Db) (c : Contact) :
  In c (contacts db) -> In c (contacts (fst (identify now e p db))).
Proof.
  intros H.
  destruct (identify_outcome now e p db) as [[-> _]|(se & sp & _ & _ & _ & _ & ->)];
    [exact H|].
  simpl. apply in_or_app. now left.
Qed.



(** ** Validation *)

(** C4: when both [email] and [phoneNumber] are absent or empty the request
    is answered with the validation error and the store is exactly what it
    was before the call. *)
Theorem identify_rejects_missing_fragments (now : Z) (e p : Text) (db : Db) :
  truthy e = false -> truthy p = false ->
  identify now e p db = (db, Status400 validation_message).
Proof.
  intros He Hp. apply identify_rejected. unfold rejected. now rewrite He, Hp.
Qed.

Lemma identify_rejects_missing_fragments_witness :
  identify 7 None (Some "") db_two_primaries
  = (db_two_primaries, Status400 validation_message).
Proof.
  apply (identify_rejects_missing_fragments 7 None (Some "") db_two_primaries);
    reflexivity.
Defined.

(** ** Frame: identity fragments of stored contacts *)

(** C10: a request never changes the [email] or [phone_number] of a stored
    contact (nor its [id], [created_at] or [deleted_at]): the row at every
    position of the table keeps them. *)
Theorem identify_keeps_email_and_phone (now : Z) (e p : Text) (db : Db)
    (i : nat) (c : Contact) :
  nth_error (contacts db) i = Some c ->
  exists c',
    nth_error (contacts (fst (identify now e p db))) i = Some c'
    /\ id c' = id c
    /\ email c' = email c
    /\ phone_number c' = phone_number c
    /\ created_at c' = created_at c
    /\ deleted_at c' = deleted_at c.
Proof.
  intros H. exists c. split; [now apply identify_keeps_row|]. repeat split.
Qed.

Lemma identify_keeps_email_and_phone_witness :
  exists c',
    nth_error (contacts (fst (identify 3 mail_a phone_b db_two_primaries))) 1
    = Some c'
    /\ id c' = 2
    /\ email c' = None
    /\ phone_number c' = phone_b
    /\ created_at c' = 2
    /\ deleted_at c' = None.
Proof.
  apply (identify_keeps_email_and_phone 3 mail_a phone_b db_two_primaries 1
           (mkContact 2 None phone_b None primary 2 2 None)).
  reflexivity.
Defined.

(** ** Promotion *)

(** C3: a contact that is secondary before a request is secondary after it.
    The promotion of lines 182-185 is written inside the transaction, which
    line 191 then sends to [ROLLBACK]; no request commits it. *)
Theorem secondary_stays_secondary (now : Z) (e p : Text) (db : Db)
    (i : nat) (c : Contact) :
  nth_error (contacts db) i = Some c ->
  link_precedence c = secondary ->
  exists c',
    nth_error (contacts (fst (identify now e p db))) i = Some c'
    /\ id c' = id c
    /\ link_precedence c' = secondary
    /\ linked_id c' = linked_id c.
Proof.
  intros H Hs. exists c. split; [now apply identify_keeps_row|]. auto.
Qed.

Lemma secondary_stays_secondary_witness :
  exists c',
    nth_error (contacts (fst (identify 3 None phone_b db_secondary_alone))) 1
    = Some c'
    /\ id c' = 2
    /\ link_precedence c' = secondary
    /\ linked_id c' = Some 1.
Proof.
  apply (secondary_stays_secondary 3 None phone_b db_secondary_alone 1
           (mkContact 2 None phone_b (Some 1) secondary 2 2 None));
    reflexivity.
Defined.

(** ** Links *)




(** ** Requests that meet a stored contact *)

(** C1: the bridging request is refused.  Contact 1 holds the email and
    contact 2 the phone, both primary, each created by a request of its
    own.  The request with that email and that phone matches both, is
    answered with status 500 and leaves both as they are: no one primary
    survives and nothing is linked. *)
Theorem bridging_request_is_refused :
  contacts db_two_primaries
  = [mkContact 1 mail_a None None primary 1 1 None;
     mkContact 2 None phone_b None primary 2 2 None]
  /\ findRelatedContacts mail_a phone_b (contacts db_two_primaries)
     = contacts db_two_primaries
  /\ identify 3 mail_a phone_b db_two_primaries
     = (db_two_primaries, Status500 server_error_message).
Proof. repeat split. Qed.

(** C5: a known email with a new phone number creates no secondary.  The
    table holds one primary with [mail_a] and [phone_b], created by a
    request; the request with [mail_a] and the new [phone_d] matches it, is
    answered with status 500 and leaves the table with its one row. *)
Theorem new_fragment_on_a_match_is_refused :
  contacts db_one_primary = [mkContact 1 mail_a phone_b None primary 1 1 None]
  /\ findRelatedContacts mail_a phone_d (contacts db_one_primary)
     = contacts db_one_primary
  /\ identify 2 mail_a phone_d db_one_primary
     = (db_one_primary, Status500 server_error_message).
Proof. repeat split. Qed.

(** C6: the same request a second time is refused.  On the empty table the
    request is answered with the new primary 1; sent again, it matches that
    primary and is answered with status 500, not with [primaryContactId] 1. *)
Theorem repeated_request_is_refused :
  identify 1 mail_a phone_b empty_db
  = (db_one_primary, Status200 (mkResponse 1 ["a@x.com"] ["111"] []))
  /\ identify 2 mail_a phone_b db_one_primary
     = (db_one_primary, Status500 server_error_message).
Proof. split; reflexivity. Qed.

(** ** Two requests at once *)

(** C9: two requests for the same unseen pair, both reading before either
    writes, create a primary each.  The read of line 94 goes through [pool],
    outside the transaction, nothing is locked and the table has no
    uniqueness constraint on the fragments. *)
Theorem interleaved_requests_create_two_primaries :
  identify_twice_interleaved 1 2 mail_a phone_b empty_db
  = (mkDb [mkContact 1 mail_a phone_b None primary 1 1 None;
           mkContact 2 mail_a phone_b None primary 2 2 None] 2,
     Status200 (mkResponse 1 ["a@x.com"] ["111"] []),
     Status200 (mkResponse 2 ["a@x.com"] ["111"] [])).
Proof. reflexivity. Qed.

(** ** The reply *)

Lemma includes_In (xs : list string) (s : string) :
  includes xs s = true <-> In s xs.
Proof.
  unfold includes. rewrite existsb_exists. split.
  - intros (x & Hx & E). apply String.eqb_eq in E. now subst.
  - intros H. exists s. split; [exact H|apply String.eqb_refl].
Qed.

Lemma Set_insert_spec (seen xs : list string) :
  NoDup seen ->
  NoDup (Set_insert seen xs)
  /\ forall s, In s (Set_insert seen xs) <-> In s seen \/ In s xs.
Proof.
  revert seen. induction xs as [|x xs IH]; intros seen Hn; simpl.
  - split; [exact Hn|]. tauto.
  - destruct (includes seen x) eqn:E.
    + destruct (IH seen Hn) as [H1 H2]. split; [exact H1|].
      intros s. rewrite H2. apply includes_In in E.
      intuition (subst; auto).
    + assert (Hx : ~ In x seen).
      { intros H. apply includes_In in H. congruence. }
      assert (Hn' : NoDup (seen ++ [x])).
      { apply NoDup_app; [exact Hn|repeat constructor; simpl; tauto|].
        intros a Ha [<-|[]]. contradiction. }
      destruct (IH _ Hn') as [H1 H2]. split; [exact H1|].
      intros s. rewrite H2, in_app_iff. simpl. tauto.
Qed.

(** [[...new Set(xs)]] has the strings of [xs], each once. *)
Lemma spread_Set_dedup (xs : list string) :
  NoDup (spread_Set xs) /\ forall s, In s (spread_Set xs) <-> In s xs.
Proof.
  destruct (Set_insert_spec [] xs (NoDup_nil _)) as [H1 H2].
  split; [exact H1|]. intros s. rewrite (H2 s). simpl. tauto.
Qed.

Lemma filter_Boolean_In (xs : list Text) (s : string) :
  In s (filter_Boolean xs) <-> In (Some s) xs /\ s <> "".
Proof.
  induction xs as [|v xs IH]; simpl; [tauto|].
  destruct v as [t|].
  - unfold truthy. destruct (String.eqb_spec t "") as [E|E]; simpl.
    + rewrite IH. split; [tauto|]. intros [[H|H] Hs]; [|tauto].
      injection H as ->. contradiction.
    + rewrite IH. split.
      * intros [->|[H1 H2]]; auto.
      * intros [[H|H] Hs]; [left; congruence|right; tauto].
  - rewrite IH. split; [tauto|]. intros [[H|H] Hs]; [discriminate|tauto].
Qed.

Lemma spread_Set_filter_Boolean (xs : list Text) :
  NoDup (spread_Set (filter_Boolean xs))
  /\ ~ In "" (spread_Set (filter_Boolean xs))
  /\ forall s, In s (spread_Set (filter_Boolean xs)) <-> In (Some s) xs /\ s <> "".
Proof.
  destruct (spread_Set_dedup (filter_Boolean xs)) as [H1 H2].
  split; [exact H1|]. split.
  - rewrite H2, filter_Boolean_In. tauto.
  - intros s. now rewrite H2, filter_Boolean_In.
Qed.






(** ** The two backends *)









(** * Further properties of backend/server.js *)

(** ** What the match query returns *)

Lemma place_Permutation {A : Type} (before : A -> A -> bool) (x : A) (l : list A) :
  Permutation (x :: l) (place before x l).
Proof.
  induction l as [|y l IH]; simpl; [apply Permutation_refl|].
  destruct (before x y); [apply Permutation_refl|].
  eapply Permutation_trans; [apply perm_swap|]. now apply perm_skip.
Qed.

Lemma order_by_Permutation {A : Type} (before : A -> A -> bool) (l : list A) :
  Permutation l (order_by before l).
Proof.
  induction l as [|x l IH]; simpl; [apply Permutation_refl|].
  eapply Permutation_trans; [|apply place_Permutation]. now apply perm_skip.
Qed.

(** X1: [findRelatedContacts] returns the rows that are not soft-deleted and
    whose email equals the given email or whose phone equals the given
    phone (a [NULL] on either side never matches), each as often as the
    table holds it, in ascending order of [created_at]. *)
Theorem findRelatedContacts_sorted_visible_matches (e p : Text)
    (table : list Contact) :
  Permutation
    (filter (fun c => (sql_eq_text (email c) e || sql_eq_text (phone_number c) p)
                      && not_deleted c) table)
    (findRelatedContacts e p table)
  /\ StronglySorted (fun a b => created_at a <= created_at b)
                    (findRelatedContacts e p table)
  /\ (forall c, In c (findRelatedContacts e p table) ->
                not_deleted c = true
                /\ (exists s, (email c = Some s /\ e = Some s)
                              \/ (phone_number c = Some s /\ p = Some s))).
Proof.
  split; [apply order_by_Permutation|]. split.
  - pose proof (findRelatedContacts_sorted e p table) as H.
    induction H as [|x l Hl IH Hx]; constructor; [exact IH|].
    rewrite Forall_forall in *. intros y Hy. apply Hx in Hy.
    unfold earlier, created_before in Hy. now apply Z.leb_le.
  - intros c Hc. apply findRelatedContacts_In in Hc.
    destruct Hc as (_ & Hd & Hm). split; [exact Hd|].
    apply orb_true_iff in Hm. unfold sql_eq_text in Hm.
    destruct Hm as [Hm|Hm].
    + destruct (email c) as [a|], e as [b|]; try discriminate.
      apply String.eqb_eq in Hm. subst. eauto.
    + destruct (phone_number c) as [a|], p as [b|]; try discriminate.
      apply String.eqb_eq in Hm. subst. eauto.
Qed.

(** ** The reply with status 200 *)

(** X2: a reply with status 200 is only given to an accepted request that
    matched no visible contact.  It names the id the new contact took from
    the sequence, lists the non-empty email and phone number of the request
    and nothing else, and no secondaries. *)
Theorem ok_reply_only_without_match (now : Z) (e p : Text) (db : Db)
    (body : IdentifyResponse) :
  snd (identify now e p db) = Status200 body ->
  rejected e p = false
  /\ findRelatedContacts e p (contacts db) = []
  /\ body = mkResponse (contacts_id_seq db + 1) (singleton_if_truthy e)
                       (singleton_if_truthy p) []
  /\ (forall s, In s (emails body) <-> e = Some s /\ s <> "")
  /\ (forall s, In s (phoneNumbers body) <-> p = Some s /\ s <> "").
Proof.
  intros Hbody.
  destruct (identify_outcome now e p db)
    as [[_ Hno]|(se & sp & Hv & Hm & _ & _ & E)].
  { now apply Hno in Hbody. }
  rewrite E in Hbody. simpl in Hbody. injection Hbody as <-.
  split; [exact Hv|]. split; [exact Hm|]. split; [reflexivity|].
  simpl. unfold singleton_if_truthy.
  split; intros s; rewrite filter_Boolean_In; simpl;
    intuition (try congruence; auto).
Qed.

Lemma ok_reply_only_without_match_witness :
  rejected mail_c None = false
  /\ findRelatedContacts mail_c None (contacts db_two_primaries) = []
  /\ mkResponse 3 ["c@x.com"] [] []
     = mkResponse (contacts_id_seq db_two_primaries + 1)
                  (singleton_if_truthy mail_c) (singleton_if_truthy None) []
  /\ (forall s, In s ["c@x.com"] <-> mail_c = Some s /\ s <> "")
  /\ (forall s, In s [] <-> @None string = Some s /\ s <> "").
Proof.
  apply (ok_reply_only_without_match 5 mail_c None db_two_primaries
           (mkResponse 3 ["c@x.com"] [] [])).
  reflexivity.
Defined.

(** X12: the [primaryContactId] of every reply is the id of a row that is
    in the table after the request and is primary there. *)
Theorem reply_names_a_primary_row (now : Z) (e p : Text) (db : Db)
    (body : IdentifyResponse) :
  snd (identify now e p db) = Status200 body ->
  exists r, In r (contacts (fst (identify now e p db)))
            /\ id r = primaryContactId body
            /\ link_precedence r = primary.
Proof.
  intros Hbody.
  destruct (identify_outcome now e p db)
    as [[_ Hno]|(se & sp & _ & _ & _ & _ & E)].
  { now apply Hno in Hbody. }
  rewrite E in *. simpl in Hbody. injection Hbody as <-. simpl.
  eexists. split; [apply in_or_app; right; now left|]. split; reflexivity.
Qed.

Lemma reply_names_a_primary_row_witness :
  exists r, In r (contacts (fst (identify 5 mail_c None db_two_primaries)))
            /\ id r = 3
            /\ link_precedence r = primary.
Proof.
  apply (reply_names_a_primary_row 5 mail_c None db_two_primaries
           (mkResponse 3 ["c@x.com"] [] [])).
  reflexivity.
Defined.

(** ** Invariants of the table *)

(** X4: a request keeps the primary-key discipline: if the ids of the table
    are unique and not ahead of the sequence before the request, they are so
    after it. *)
Theorem identify_keeps_ids_in_sequence (now : Z) (e p : Text) (db : Db) :
  ids_in_sequence db -> ids_in_sequence (fst (identify now e p db)).
Proof.
  intros [Hn Hb].
  destruct (identify_outcome now e p db) as [[-> _]|(se & sp & _ & _ & _ & _ & ->)];
    [now split|].
  unfold ids_in_sequence. simpl. rewrite map_app. simpl. split.
  - apply NoDup_app; [exact Hn|repeat constructor; simpl; tauto|].
    intros a Ha [<-|[]]. apply in_map_iff in Ha. destruct Ha as (c & Ec & Hc).
    rewrite Forall_forall in Hb. apply Hb in Hc. lia.
  - apply Forall_app. split.
    + rewrite Forall_forall in *. intros c Hc. apply Hb in Hc. lia.
    + repeat constructor. simpl. lia.
Qed.

Lemma identify_keeps_ids_in_sequence_witness :
  ids_in_sequence (fst (identify 3 mail_a phone_b db_two_primaries)).
Proof.
  apply (identify_keeps_ids_in_sequence 3 mail_a phone_b db_two_primaries).
  split.
  - repeat (constructor; [simpl; intuition discriminate|]). constructor.
  - repeat constructor; simpl; lia.
Defined.

(** X5: a request keeps the foreign key: if every [linked_id] of the table
    names a row of the table before the request, it does so after it. *)
Theorem identify_keeps_links_resolved (now : Z) (e p : Text) (db : Db) :
  links_resolve (contacts db) ->
  links_resolve (contacts (fst (identify now e p db))).
Proof.
  intros Hres c l Hc Hl.
  assert (Hold : In c (contacts db) ->
                 exists d, In d (contacts (fst (identify now e p db))) /\ id d = l).
  { intros Hin. destruct (Hres c l Hin Hl) as (d & Hd & Hid).
    exists d. split; [now apply identify_keeps_In|exact Hid]. }
  destruct (identify_outcome now e p db) as [[E _]|(se & sp & _ & _ & _ & _ & E)].
  - apply Hold. now rewrite E in Hc.
  - rewrite E in Hc. simpl in Hc. apply in_app_or in Hc.
    destruct Hc as [Hc|[<-|[]]]; [now apply Hold|discriminate].
Qed.

Lemma identify_keeps_links_resolved_witness :
  links_resolve (contacts (fst (identify 4 mail_a phone_b db_family_and_primary))).
Proof.
  apply (identify_keeps_links_resolved 4 mail_a phone_b db_family_and_primary).
  intros c l Hc Hl. simpl in Hc.
  destruct Hc as [<-|[<-|[<-|[]]]]; simpl in Hl; try discriminate.
  injection Hl as <-. eexists. split; [right; left; reflexivity|reflexivity].
Defined.

(** X6: a request never stores a contact without a fragment: if every row
    holds a non-empty email or phone number before the request, every row
    does after it. *)
Theorem identify_keeps_rows_identifying (now : Z) (e p : Text) (db : Db) :
  Forall (fun c => holds_a_fragment c = true) (contacts db) ->
  Forall (fun c => holds_a_fragment c = true) (contacts (fst (identify now e p db))).
Proof.
  intros Hold.
  destruct (identify_outcome now e p db)
    as [[-> _]|(se & sp & Hv & _ & Hse & Hsp & ->)]; [exact Hold|].
  simpl. apply Forall_app. split; [exact Hold|].
  repeat constructor. unfold holds_a_fragment. simpl.
  rewrite (store_varchar_truthy 255 e se), (store_varchar_truthy 20 p sp);
    try assumption; try discriminate.
  now apply rejected_false_fragment.
Qed.

Lemma identify_keeps_rows_identifying_witness :
  Forall (fun c => holds_a_fragment c = true)
         (contacts (fst (identify 3 mail_a phone_b db_two_primaries))).
Proof.
  apply (identify_keeps_rows_identifying 3 mail_a phone_b db_two_primaries).
  repeat constructor.
Defined.

(** ** A request that meets a stored contact is rolled back *)

(** X7: an accepted request that meets a visible contact holding its email
    or its phone number is answered with status 500 and changes nothing,
    whatever the role of the contact: the handler commits no promotion, no
    secondary and no demotion, and the sequence stays where it was. *)
Theorem matched_request_changes_nothing (now : Z) (e p : Text) (db : Db)
    (c : Contact) :
  rejected e p = false ->
  In c (contacts db) -> not_deleted c = true ->
  sql_eq_text (email c) e || sql_eq_text (phone_number c) p = true ->
  identify now e p db = (db, Status500 server_error_message).
Proof.
  exact (identify_meets_contact now e p db c).
Qed.

Lemma matched_request_changes_nothing_witness :
  identify 4 mail_c phone_d db_family_and_primary
  = (db_family_and_primary, Status500 server_error_message).
Proof.
  apply (matched_request_changes_nothing 4 mail_c phone_d db_family_and_primary
           (mkContact 3 mail_c None (Some 2) secondary 3 3 None)).
  - reflexivity.
  - right. right. left. reflexivity.
  - reflexivity.
  - reflexivity.
Defined.

(** ** Fresh fragments *)



(** X28: when the email or the phone number of an accepted request that
    matches nothing is refused by its column (more than 255 or 20
    characters, with something other than spaces past the limit), the
    request is answered with status 500 and no row is stored. *)
Theorem over_long_fragment_is_refused (now : Z) (e p : Text) (db : Db) :
  rejected e p = false ->
  findRelatedContacts e p (contacts db) = [] ->
  store_varchar 255 e = None \/ store_varchar 20 p = None ->
  snd (identify now e p db) = Status500 server_error_message
  /\ contacts (fst (identify now e p db)) = contacts db.
Proof.
  intros Hv Hm Hlong. rewrite identify_fresh by assumption.
  destruct Hlong as [-> | ->]; [now split|].
  destruct (store_varchar 255 e); now split.
Qed.

Lemma over_long_fragment_is_refused_witness :
  snd (identify 5 mail_c phone_long db_two_primaries) = Status500 server_error_message
  /\ contacts (fst (identify 5 mail_c phone_long db_two_primaries))
     = contacts db_two_primaries.
Proof.
  apply (over_long_fragment_is_refused 5 mail_c phone_long db_two_primaries).
  - reflexivity.
  - reflexivity.
  - right. reflexivity.
Defined.

(** ** Soft-deleted contacts *)

(** X11: a soft-deleted contact is no match for any request, and no request
    changes its row. *)
Theorem soft_deleted_contact_is_left_alone (now : Z) (e p : Text) (db : Db)
    (i : nat) (c : Contact) :
  nth_error (contacts db) i = Some c ->
  not_deleted c = false ->
  ~ In c (findRelatedContacts e p (contacts db))
  /\ nth_error (contacts (fst (identify now e p db))) i = Some c.
Proof.
  intros Hi Hd. split; [|now apply identify_keeps_row].
  intros Hc. apply findRelatedContacts_In in Hc. destruct Hc as (_ & Hv & _).
  congruence.
Qed.

Lemma soft_deleted_contact_is_left_alone_witness :
  ~ In (mkContact 1 mail_a None None primary 1 1 (Some 9))
       (findRelatedContacts mail_a None (contacts db_with_deleted))
  /\ nth_error (contacts (fst (identify 10 mail_a None db_with_deleted))) 0
     = Some (mkContact 1 mail_a None None primary 1 1 (Some 9)).
Proof.
  apply (soft_deleted_contact_is_left_alone 10 mail_a None db_with_deleted 0
           (mkContact 1 mail_a None None primary 1 1 (Some 9))); reflexivity.
Defined.

(** ** The same request again *)

(** X13: served one after the other, a request that was answered with
    status 200 and whose fragments fit their columns is answered with
    status 500 when it is sent again, and the second call changes nothing:
    the contact the first call created is the match that sends the second
    to line 191. *)
Theorem repeated_request_changes_nothing (now later : Z) (e p : Text) (db : Db)
    (body : IdentifyResponse) :
  snd (identify now e p db) = Status200 body ->
  fits 255 e = true -> fits 20 p = true ->
  identify later e p (fst (identify now e p db))
  = (fst (identify now e p db), Status500 server_error_message).
Proof.
  intros Hbody He Hp.
  destruct (identify_outcome now e p db)
    as [[_ Hno]|(se & sp & Hv & _ & Hse & Hsp & E)].
  { now apply Hno in Hbody. }
  rewrite (fits_stored _ _ He) in Hse. rewrite (fits_stored _ _ Hp) in Hsp.
  injection Hse as <-. injection Hsp as <-.
  rewrite E. simpl fst.
  apply (identify_meets_contact later e p _
           (mkContact (contacts_id_seq db + 1) e p None primary now now None)).
  - exact Hv.
  - simpl. apply in_or_app. right. now left.
  - reflexivity.
  - simpl. apply rejected_false_fragment in Hv. apply orb_true_iff.
    apply orb_true_iff in Hv.
    destruct Hv as [H|H]; [left|right]; now apply truthy_matches_itself.
Qed.

Lemma repeated_request_changes_nothing_witness :
  identify 6 mail_c None (fst (identify 5 mail_c None db_two_primaries))
  = (fst (identify 5 mail_c None db_two_primaries), Status500 server_error_message).
Proof.
  apply (repeated_request_changes_nothing 5 6 mail_c None db_two_primaries
           (mkResponse 3 ["c@x.com"] [] [])); reflexivity.
Defined.

(** ** Requests at the same time *)


(** * Properties of the Firestore contact service *)

Lemma getDocs_In (matches : Firestore.FirebaseContact -> bool)
    (col : Firestore.Collection) (d : Firestore.FirebaseContact) :
  In d (Firestore.getDocs matches col) <-> In d col /\ matches d = true.
Proof.
  unfold Firestore.getDocs. now rewrite order_by_In, filter_In.
Qed.

Lemma known_id_In (all : list Firestore.FirebaseContact) (x : string) :
  existsb (fun c => String.eqb (Firestore.id c) x) all = true
  <-> In x (map Firestore.id all).
Proof.
  rewrite existsb_exists, in_map_iff. split.
  - intros (c & Hc & E). apply String.eqb_eq in E. eauto.
  - intros (c & E & Hc). exists c. split; [exact Hc|]. now apply String.eqb_eq.
Qed.

Lemma push_unique_spec (docs acc : list Firestore.FirebaseContact) :
  NoDup (map Firestore.id acc) ->
  NoDup (map Firestore.id (Firestore.push_unique acc docs))
  /\ (forall d, In d (Firestore.push_unique acc docs) -> In d acc \/ In d docs)
  /\ (forall d, In d acc -> In d (Firestore.push_unique acc docs))
  /\ (forall d, In d docs ->
                In (Firestore.id d) (map Firestore.id (Firestore.push_unique acc docs))).
Proof.
  unfold Firestore.push_unique. revert acc.
  induction docs as [|x docs IH]; intros acc Hn; simpl.
  - repeat split; auto. intros d [].
  - destruct (existsb _ acc) eqn:E.
    + destruct (IH acc Hn) as (H1 & H2 & H3 & H4).
      split; [exact H1|]. split; [|split].
      * intros d Hd. apply H2 in Hd. tauto.
      * exact H3.
      * intros d [<-|Hd]; [|now apply H4].
        apply known_id_In in E. apply in_map_iff in E.
        destruct E as (c & Ec & Hc). rewrite <- Ec. apply in_map. now apply H3.
    + assert (Hx : ~ In (Firestore.id x) (map Firestore.id acc)).
      { intros H. apply known_id_In in H. congruence. }
      assert (Hn' : NoDup (map Firestore.id (acc ++ [x]))).
      { rewrite map_app. apply NoDup_app; [exact Hn|repeat constructor; simpl; tauto|].
        intros a Ha [<-|[]]. contradiction. }
      destruct (IH (acc ++ [x]) Hn') as (H1 & H2 & H3 & H4).
      split; [exact H1|]. split; [|split].
      * intros d Hd. apply H2 in Hd. rewrite in_app_iff in Hd. simpl in Hd. tauto.
      * intros d Hd. apply H3. apply in_or_app. now left.
      * intros d [<-|Hd]; [|now apply H4].
        apply in_map. apply H3. apply in_or_app. right. now left.
Qed.

Lemma findRelatedContacts_docs (e p : Text) (uid : string) (col : Firestore.Collection) :
  exists emailDocs phoneDocs,
    Firestore.findRelatedContacts e p uid col
    = Firestore.push_unique (Firestore.push_unique [] emailDocs) phoneDocs
    /\ forall d, In d emailDocs \/ In d phoneDocs
                 <-> In d col /\ doc_matches e p uid d = true.
Proof.
  unfold Firestore.findRelatedContacts. do 2 eexists. split; [reflexivity|].
  intros d. unfold doc_matches.
  set (of_user := if String.eqb uid "" then true
                  else String.eqb (Firestore.userId d) uid).
  assert (Hu : String.eqb uid "" || String.eqb (Firestore.userId d) uid = of_user).
  { subst of_user. now destruct (String.eqb uid ""). }
  rewrite Hu.
  destruct e as [s|], p as [t|];
    repeat match goal with
           | |- context [truthy (Some ?x)] => destruct (truthy (Some x))
           end;
    simpl; rewrite ?getDocs_In; fold of_user;
    rewrite ?andb_true_iff, ?orb_true_iff, ?andb_true_iff;
    intuition discriminate.
Qed.

Lemma firestore_findRelatedContacts_facts (e p : Text) (uid : string)
    (col : Firestore.Collection) :
  NoDup (map Firestore.id (Firestore.findRelatedContacts e p uid col))
  /\ (NoDup (map Firestore.id col) ->
      forall d, In d (Firestore.findRelatedContacts e p uid col)
                <-> In d col /\ doc_matches e p uid d = true).
Proof.
  destruct (findRelatedContacts_docs e p uid col) as (eds & pds & -> & Hdocs).
  destruct (push_unique_spec eds [] (NoDup_nil _)) as (A1 & A2 & A3 & A4).
  destruct (push_unique_spec pds _ A1) as (B1 & B2 & B3 & B4).
  split; [exact B1|]. intros Hn d. split.
  - intros Hd. apply Hdocs. apply B2 in Hd. destruct Hd as [Hd|Hd]; [|now right].
    apply A2 in Hd. destruct Hd as [[]|Hd]. now left.
  - intros Hd. pose proof Hd as [Hin _]. apply Hdocs in Hd.
    assert (Hid : In (Firestore.id d)
                     (map Firestore.id
                        (Firestore.push_unique (Firestore.push_unique [] eds) pds))).
    { destruct Hd as [Hd|Hd]; [|now apply B4].
      apply A4 in Hd. apply in_map_iff in Hd. destruct Hd as (c & Ec & Hc).
      rewrite <- Ec. apply in_map. now apply B3. }
    apply in_map_iff in Hid. destruct Hid as (c & Ec & Hc).
    assert (Hcin : In c col).
    { apply B2 in Hc. destruct Hc as [Hc|Hc].
      - apply A2 in Hc. destruct Hc as [[]|Hc].
        apply (proj1 (Hdocs c)). now left.
      - apply (proj1 (Hdocs c)). now right. }
    replace d with c; [exact Hc|].
    clear - Hn Hin Hcin Ec. induction col as [|x col IH]; [destruct Hin|].
    simpl in Hn. inversion Hn as [|? ? Hx Hn']; subst.
    destruct Hin as [->|Hin], Hcin as [->|Hcin]; auto.
    + exfalso. apply Hx. rewrite <- Ec. now apply in_map.
    + exfalso. apply Hx. rewrite Ec. now apply in_map.
Qed.

(** X14: [FirebaseContactService.findRelatedContacts] never returns the
    same document id twice: a contact that matches by email and by phone
    number is returned once. *)
Theorem firestore_findRelatedContacts_has_distinct_ids (e p : Text) (uid : string)
    (col : Firestore.Collection) :
  NoDup (map Firestore.id (Firestore.findRelatedContacts e p uid col)).
Proof.
  apply firestore_findRelatedContacts_facts.
Qed.

(** X15: when the document ids of the collection are unique,
    [FirebaseContactService.findRelatedContacts] returns exactly the
    documents whose email or phone number equals a non-empty one of the
    request and that belong to the given user (to any user when the user id
    is empty). *)
Theorem firestore_findRelatedContacts_exact (e p : Text) (uid : string)
    (col : Firestore.Collection) (d : Firestore.FirebaseContact) :
  NoDup (map Firestore.id col) ->
  (In d (Firestore.findRelatedContacts e p uid col)
   <-> In d col /\ doc_matches e p uid d = true).
Proof.
  intros Hn. now apply firestore_findRelatedContacts_facts.
Qed.

Lemma firestore_findRelatedContacts_exact_witness :
  In (Firestore.mkDoc "k1" mail_a phone_b None primary "u1" 1 1)
     (Firestore.findRelatedContacts mail_a phone_b "u1" col_one_primary)
  <-> In (Firestore.mkDoc "k1" mail_a phone_b None primary "u1" 1 1) col_one_primary
      /\ doc_matches mail_a phone_b "u1"
           (Firestore.mkDoc "k1" mail_a phone_b None primary "u1" 1 1) = true.
Proof.
  apply (firestore_findRelatedContacts_exact mail_a phone_b "u1" col_one_primary
           (Firestore.mkDoc "k1" mail_a phone_b None primary "u1" 1 1)).
  repeat (constructor; [simpl; intuition discriminate|]). constructor.
Defined.

Lemma doc_matches_own_fragments (e p : Text) (uid : string)
    (d : Firestore.FirebaseContact) :
  Firestore.email d = e -> Firestore.phoneNumber d = p -> Firestore.userId d = uid ->
  truthy e || truthy p = true ->
  doc_matches e p uid d = true.
Proof.
  intros <- <- <- H. unfold doc_matches.
  rewrite String.eqb_refl, orb_true_r, andb_true_r.
  destruct (Firestore.email d) as [s|], (Firestore.phoneNumber d) as [t|];
    simpl in *; rewrite ?String.eqb_refl, ?andb_true_r; auto.
Qed.

(** X16: a contact written by [FirebaseContactService.createContact] is
    found again: searching the new collection for the fragments it was
    created with, under the same user, returns a document with the id that
    [addDoc] generated. *)
Theorem firestore_created_contact_is_found (ignoreUndefinedProperties : bool)
    (now : Z) (autoId : string) (e p : Text) (precedence : LinkPrecedence)
    (uid : string) (col col' : Firestore.Collection)
    (d : Firestore.FirebaseContact) :
  Firestore.createContact ignoreUndefinedProperties now autoId e p precedence uid col
  = Some (col', d) ->
  truthy e || truthy p = true ->
  Firestore.id d = autoId
  /\ col' = col ++ [d]
  /\ In autoId (map Firestore.id (Firestore.findRelatedContacts e p uid col')).
Proof.
  unfold Firestore.createContact.
  destruct (Firestore.write_allowed _ _); [|discriminate].
  intros [= <- <-] Hfrag. split; [reflexivity|]. split; [reflexivity|].
  set (d := Firestore.mkDoc autoId e p None precedence uid now now).
  destruct (findRelatedContacts_docs e p uid (col ++ [d])) as (eds & pds & -> & Hdocs).
  destruct (push_unique_spec eds [] (NoDup_nil _)) as (A1 & A2 & A3 & A4).
  destruct (push_unique_spec pds _ A1) as (B1 & B2 & B3 & B4).
  assert (Hd : In d eds \/ In d pds).
  { apply Hdocs. split; [apply in_or_app; right; now left|].
    now apply doc_matches_own_fragments. }
  change autoId with (Firestore.id d). destruct Hd as [Hd|Hd]; [|now apply B4].
  apply A4 in Hd. apply in_map_iff in Hd. destruct Hd as (c & Ec & Hc).
  rewrite <- Ec. apply in_map. now apply B3.
Qed.

Lemma firestore_created_contact_is_found_witness :
  Firestore.id (Firestore.mkDoc "k2" mail_c None None secondary "u1" 2 2) = "k2"
  /\ col_one_primary ++ [Firestore.mkDoc "k2" mail_c None None secondary "u1" 2 2]
     = col_one_primary ++ [Firestore.mkDoc "k2" mail_c None None secondary "u1" 2 2]
  /\ In "k2" (map Firestore.id
                (Firestore.findRelatedContacts mail_c None "u1"
                   (col_one_primary
                    ++ [Firestore.mkDoc "k2" mail_c None None secondary "u1" 2 2]))).
Proof.
  apply (firestore_created_contact_is_found true 2 "k2" mail_c None secondary "u1"
           col_one_primary); reflexivity.
Defined.

(** X17: [FirebaseContactService.getContactsByUser] returns the documents
    of the user, each once per occurrence in the collection and no other,
    in ascending order of [createdAt]. *)
Theorem firestore_getContactsByUser_sorted_own (uid : string)
    (col : Firestore.Collection) :
  Permutation (filter (fun d => String.eqb (Firestore.userId d) uid) col)
              (Firestore.getContactsByUser uid col)
  /\ StronglySorted (fun a b => Firestore.createdAt a <= Firestore.createdAt b)
                    (Firestore.getContactsByUser uid col)
  /\ forall d, In d (Firestore.getContactsByUser uid col)
               <-> In d col /\ Firestore.userId d = uid.
Proof.
  unfold Firestore.getContactsByUser, Firestore.getDocs. split; [|split].
  - eapply Permutation_trans; apply order_by_Permutation.
  - assert (H : StronglySorted (fun a b => Firestore.createdAt_before a b = true)
                  (order_by Firestore.createdAt_before
                     (order_by Firestore.name_before
                        (filter (fun d => String.eqb (Firestore.userId d) uid) col)))).
    { apply order_by_ordered; unfold Firestore.createdAt_before.
      - intros a b H. apply Z.leb_gt in H. apply Z.leb_le. lia.
      - intros a b c H1 H2. apply Z.leb_le in H1, H2. apply Z.leb_le. lia. }
    induction H as [|x l Hl IH Hx]; constructor; [exact IH|].
    rewrite Forall_forall in *. intros y Hy. apply Hx in Hy.
    unfold Firestore.createdAt_before in Hy. now apply Z.leb_le.
  - intros d. rewrite !order_by_In, filter_In.
    split; intros [H1 H2]; split; auto; now apply String.eqb_eq.
Qed.

(** * Properties of the Firestore form handler *)

Lemma firestore_handleSubmit_cases (ignoreUndefinedProperties : bool) (now : Z)
    (autoId : string) (user : option string) (formEmail formPhone : string)
    (col : Firestore.Collection) :
  let run := Firestore.handleSubmit ignoreUndefinedProperties now autoId user
               formEmail formPhone col in
  (fst run = col /\ forall r, snd run <> Firestore.Result r)
  \/ exists uid col1,
       user = Some uid /\ fst run = col1
       /\ snd run
          = Firestore.Result
              (let allContacts := Firestore.getContactsByUser uid col1 in
               Firestore.mkResult
                 (option_map Firestore.id
                    (match find Firestore.is_primary_doc allContacts with
                     | Some c => Some c
                     | None => hd_error allContacts
                     end))
                 (spread_Set (filter_Boolean (map Firestore.email allContacts)))
                 (spread_Set (filter_Boolean (map Firestore.phoneNumber allContacts)))
                 (map Firestore.id (filter Firestore.is_secondary_doc allContacts)))
       /\ ((exists first rest e' p',
              Firestore.findRelatedContacts (Firestore.form_field formEmail)
                (Firestore.form_field formPhone) uid col = first :: rest
              /\ Firestore.updateContact ignoreUndefinedProperties now
                   (Firestore.id first) e' p' col = Some col1)
           \/ (Firestore.findRelatedContacts (Firestore.form_field formEmail)
                 (Firestore.form_field formPhone) uid col = []
               /\ col1 = col ++ [Firestore.mkDoc autoId
                                   (Firestore.form_field formEmail)
                                   (Firestore.form_field formPhone)
                                   None primary uid now now])).
Proof.
  cbv zeta. unfold Firestore.handleSubmit.
  destruct (String.eqb formEmail "" && String.eqb formPhone "").
  { left. split; [reflexivity|discriminate]. }
  destruct user as [uid|]; [|left; split; [reflexivity|discriminate]].
  destruct (Firestore.findRelatedContacts _ _ uid col) as [|first rest] eqn:Hm.
  - unfold Firestore.createContact.
    destruct (Firestore.write_allowed _ _); simpl.
    + right. exists uid. eexists.
      split; [reflexivity|]. split; [reflexivity|]. split; [reflexivity|].
      right. split; [first [exact Hm|reflexivity]|reflexivity].
    + left. split; [reflexivity|discriminate].
  - destruct (Firestore.updateContact _ _ _ _ _ col) as [col1|] eqn:Hu.
    + right. exists uid, col1.
      split; [reflexivity|]. split; [reflexivity|]. split; [reflexivity|].
      left. do 4 eexists. split; [first [exact Hm|reflexivity]|exact Hu].
    + left. split; [reflexivity|discriminate].
Qed.

Lemma updateContact_frame (ignoreUndefinedProperties : bool) (now : Z)
    (target : string) (e p : Text) (col col1 : Firestore.Collection) :
  Firestore.updateContact ignoreUndefinedProperties now target e p col = Some col1 ->
  exists f, col1 = map f col
            /\ forall d, Firestore.id (f d) = Firestore.id d
                         /\ Firestore.userId (f d) = Firestore.userId d
                         /\ Firestore.linkPrecedence (f d) = Firestore.linkPrecedence d
                         /\ Firestore.linkedId (f d) = Firestore.linkedId d
                         /\ Firestore.createdAt (f d) = Firestore.createdAt d.
Proof.
  unfold Firestore.updateContact.
  destruct (Firestore.write_allowed _ _); [|discriminate].
  intros [= <-]. eexists. split; [reflexivity|].
  intros d. cbv beta. destruct (String.eqb (Firestore.id d) target); simpl; auto.
Qed.

(** X18: the Firestore form handler never links contacts and never makes
    or unmakes a secondary: after a submit every stored document has the
    id, owner, role, link and creation time it had, at most one document
    is added, and an added document is a primary of the signed-in user
    without a link. *)
Theorem firestore_handleSubmit_never_links (ignoreUndefinedProperties : bool)
    (now : Z) (autoId : string) (user : option string)
    (formEmail formPhone : string) (col : Firestore.Collection) :
  exists f news,
    fst (Firestore.handleSubmit ignoreUndefinedProperties now autoId user
           formEmail formPhone col)
    = map f col ++ news
    /\ (forall d, Firestore.id (f d) = Firestore.id d
                  /\ Firestore.userId (f d) = Firestore.userId d
                  /\ Firestore.linkPrecedence (f d) = Firestore.linkPrecedence d
                  /\ Firestore.linkedId (f d) = Firestore.linkedId d
                  /\ Firestore.createdAt (f d) = Firestore.createdAt d)
    /\ (List.length news <= 1)%nat
    /\ Forall (fun d => Firestore.linkPrecedence d = primary
                        /\ Firestore.linkedId d = None
                        /\ user = Some (Firestore.userId d)) news.
Proof.
  destruct (firestore_handleSubmit_cases ignoreUndefinedProperties now autoId user
              formEmail formPhone col)
    as [[-> _]|(uid & col1 & -> & -> & _ & [(first & rest & e' & p' & _ & Hu)|[_ ->]])].
  - exists (fun d => d), []. rewrite map_id, app_nil_r. simpl.
    repeat split; auto.
  - destruct (updateContact_frame _ _ _ _ _ _ _ Hu) as (f & -> & Hf).
    exists f, []. rewrite app_nil_r. simpl. repeat split; auto; apply Hf.
  - exists (fun d => d). eexists. rewrite map_id. split; [reflexivity|].
    simpl. repeat split; auto.
Qed.

Lemma getContactsByUser_In (uid : string) (col : Firestore.Collection)
    (d : Firestore.FirebaseContact) :
  In d (Firestore.getContactsByUser uid col) <-> In d col /\ Firestore.userId d = uid.
Proof.
  unfold Firestore.getContactsByUser, Firestore.getDocs.
  rewrite !order_by_In, filter_In.
  split; intros [H1 H2]; split; auto; now apply String.eqb_eq.
Qed.

(** X19: the result shown by the Firestore form is built from every contact
    of the signed-in user, matched by the request or not: [emails] and
    [phoneNumbers] hold, without repetition, exactly the non-empty emails
    and phone numbers stored for the user after the write, and
    [secondaryContactIds] the ids of the user's secondary contacts. *)
Theorem firestore_result_covers_all_user_contacts (ignoreUndefinedProperties : bool)
    (now : Z) (autoId uid formEmail formPhone : string)
    (col : Firestore.Collection) (r : Firestore.ReconcileResult) :
  snd (Firestore.handleSubmit ignoreUndefinedProperties now autoId (Some uid)
         formEmail formPhone col) = Firestore.Result r ->
  let col' := fst (Firestore.handleSubmit ignoreUndefinedProperties now autoId
                     (Some uid) formEmail formPhone col) in
  (forall s, In s (Firestore.emails r)
             <-> s <> "" /\ exists d, In d col' /\ Firestore.userId d = uid
                                      /\ Firestore.email d = Some s)
  /\ (forall s, In s (Firestore.phoneNumbers r)
                <-> s <> "" /\ exists d, In d col' /\ Firestore.userId d = uid
                                         /\ Firestore.phoneNumber d = Some s)
  /\ (forall x, In x (Firestore.secondaryContactIds r)
                <-> exists d, In d col' /\ Firestore.userId d = uid
                              /\ Firestore.linkPrecedence d = secondary
                              /\ Firestore.id d = x)
  /\ NoDup (Firestore.emails r) /\ NoDup (Firestore.phoneNumbers r).
Proof.
  intros Hr. cbv zeta.
  destruct (firestore_handleSubmit_cases ignoreUndefinedProperties now autoId
              (Some uid) formEmail formPhone col)
    as [[_ Hno]|(uid' & col1 & [= <-] & -> & Hres & _)].
  { now apply Hno in Hr. }
  rewrite Hres in Hr. injection Hr as <-. cbv zeta. simpl.
  set (all := Firestore.getContactsByUser uid col1).
  destruct (spread_Set_filter_Boolean (map Firestore.email all)) as (E1 & _ & E3).
  destruct (spread_Set_filter_Boolean (map Firestore.phoneNumber all)) as (P1 & _ & P3).
  assert (Hall : forall d, In d all <-> In d col1 /\ Firestore.userId d = uid)
    by (intros d; apply getContactsByUser_In).
  repeat split; auto.
  - now apply E3.
  - apply E3 in H. destruct H as [H _]. apply in_map_iff in H.
    destruct H as (d & Ed & Hd). apply Hall in Hd. exists d. tauto.
  - intros [Hs (d & Hd & Hu & Ed)]. apply E3. split; [|exact Hs].
    rewrite <- Ed. apply in_map. apply Hall. auto.
  - now apply P3.
  - apply P3 in H. destruct H as [H _]. apply in_map_iff in H.
    destruct H as (d & Ed & Hd). apply Hall in Hd. exists d. tauto.
  - intros [Hs (d & Hd & Hu & Ed)]. apply P3. split; [|exact Hs].
    rewrite <- Ed. apply in_map. apply Hall. auto.
  - intros H. apply in_map_iff in H. destruct H as (d & Ed & Hd).
    apply filter_In in Hd. destruct Hd as [Hd Hs]. apply Hall in Hd.
    exists d. repeat split; try tauto.
    unfold Firestore.is_secondary_doc in Hs.
    destruct (Firestore.linkPrecedence d); [discriminate|reflexivity].
  - intros (d & Hd & Hu & Hs & <-). apply in_map. apply filter_In.
    split; [apply Hall; auto|]. unfold Firestore.is_secondary_doc. now rewrite Hs.
Qed.

Lemma firestore_result_covers_all_user_contacts_witness :
  let r := Firestore.mkResult (Some "k1") ["a@x.com"] ["222"] [] in
  let col' := fst (Firestore.handleSubmit false 2 "k2" (Some "u1") "a@x.com" "222"
                     col_one_primary) in
  (forall s, In s (Firestore.emails r)
             <-> s <> "" /\ exists d, In d col' /\ Firestore.userId d = "u1"
                                      /\ Firestore.email d = Some s)
  /\ (forall s, In s (Firestore.phoneNumbers r)
                <-> s <> "" /\ exists d, In d col' /\ Firestore.userId d = "u1"
                                         /\ Firestore.phoneNumber d = Some s)
  /\ (forall x, In x (Firestore.secondaryContactIds r)
                <-> exists d, In d col' /\ Firestore.userId d = "u1"
                              /\ Firestore.linkPrecedence d = secondary
                              /\ Firestore.id d = x)
  /\ NoDup (Firestore.emails r) /\ NoDup (Firestore.phoneNumbers r).
Proof.
  apply (firestore_result_covers_all_user_contacts false 2 "k2" "u1" "a@x.com" "222"
           col_one_primary (Firestore.mkResult (Some "k1") ["a@x.com"] ["222"] [])).
  reflexivity.
Defined.

(** * Properties of the Firestore profile service *)

Lemma createOrUpdateProfile_Some (ignoreUndefinedProperties accepted : bool) (now : Z)
    (userId : string) (data : Profiles.ProfileData) (store store' : Profiles.Store) :
  Profiles.createOrUpdateProfile ignoreUndefinedProperties accepted now userId data store
  = Some store' ->
  accepted = true
  /\ ignoreUndefinedProperties
     || negb (Profiles.is_undefined (Profiles.givenFullName data)
              || Profiles.is_undefined (Profiles.givenAvatarUrl data)
              || Profiles.is_undefined (Profiles.givenRole data)) = true
  /\ store'
     = fun name =>
         if String.eqb name userId
         then Some (Profiles.mkProfile userId
                      (Profiles.merged (Profiles.givenFullName data)
                         (stored_field Profiles.fullName (store userId)))
                      (Profiles.merged (Profiles.givenAvatarUrl data)
                         (stored_field Profiles.avatarUrl (store userId)))
                      (Profiles.merged (Profiles.givenRole data)
                         (stored_field Profiles.role (store userId)))
                      now now)
         else store name.
Proof.
  unfold Profiles.createOrUpdateProfile.
  destruct accepted; [|discriminate]. simpl andb.
  destruct (_ || _); [|discriminate]. intros [= <-]. repeat split.
Qed.

Lemma merged_later_wins (later earlier : Profiles.Given) (old : Text) :
  Profiles.merged (later_wins later earlier) old
  = Profiles.merged later (Profiles.merged earlier old).
Proof.
  now destruct later.
Qed.

(** X21: two writes of the same user's profile, one after the other, leave
    the store as one write at the later time would, with the data of both
    where the later write wins key by key. *)
Theorem profile_writes_compose (ignoreUndefinedProperties accepted1 accepted2 : bool)
    (t1 t2 : Z) (userId : string) (d1 d2 : Profiles.ProfileData)
    (store s1 s2 : Profiles.Store) :
  Profiles.createOrUpdateProfile ignoreUndefinedProperties accepted1 t1 userId d1 store
  = Some s1 ->
  Profiles.createOrUpdateProfile ignoreUndefinedProperties accepted2 t2 userId d2 s1
  = Some s2 ->
  exists s12,
    Profiles.createOrUpdateProfile ignoreUndefinedProperties true t2 userId
      (combined_data d2 d1) store = Some s12
    /\ forall name, s2 name = s12 name.
Proof.
  intros H1 H2.
  destruct (createOrUpdateProfile_Some _ _ _ _ _ _ _ H1) as (_ & A1 & ->).
  destruct (createOrUpdateProfile_Some _ _ _ _ _ _ _ H2) as (_ & A2 & ->).
  unfold Profiles.createOrUpdateProfile. simpl andb.
  replace (ignoreUndefinedProperties || _) with true.
  - eexists. split; [reflexivity|].
    intros name. cbv beta. rewrite String.eqb_refl.
    destruct (String.eqb name userId); [|reflexivity].
    unfold combined_data. simpl. now rewrite !merged_later_wins.
  - symmetry. destruct ignoreUndefinedProperties; [reflexivity|].
    simpl in *. destruct d1 as [[| |a] [| |b] [| |c]]; try discriminate;
      destruct d2 as [[| |a'] [| |b'] [| |c']]; try discriminate; reflexivity.
Qed.

Lemma profile_writes_compose_witness :
  let s1 : Profiles.Store :=
    fun m => if String.eqb m "u1"
             then Some (Profiles.mkProfile "u1" (Some "Bea") (Some "") (Some "user") 7 7)
             else store_one_profile m in
  let s2 : Profiles.Store :=
    fun n => if String.eqb n "u1"
             then Some (Profiles.mkProfile "u1" (Some "Bea") (Some "pic") (Some "user") 8 8)
             else s1 n in
  exists s12,
    Profiles.createOrUpdateProfile false true 8 "u1"
      (combined_data
         (Profiles.mkData Profiles.Absent (Profiles.Value "pic") Profiles.Absent)
         (Profiles.mkData (Profiles.Value "Bea") Profiles.Absent Profiles.Absent))
      store_one_profile = Some s12
    /\ forall name, s2 name = s12 name.
Proof.
  intros s1 s2.
  apply (profile_writes_compose false true true 7 8 "u1"
           (Profiles.mkData (Profiles.Value "Bea") Profiles.Absent Profiles.Absent)
           (Profiles.mkData Profiles.Absent (Profiles.Value "pic") Profiles.Absent)
           store_one_profile s1 s2); reflexivity.
Defined.

(** X22: when Firestore answers the reads, [fetchProfile] of a signed-in
    user who has a profile, or whose default profile Firestore accepts at
    the first attempt, ends after at most two calls of itself and shows the
    stored profile without a toast.  If the user has a profile, the store is
    left as it is; if not, the store gains the default profile: the display
    name and photo of the user (empty strings when missing) and the role
    [user]. *)
Theorem fetchProfile_shows_or_creates (ignoreUndefinedProperties : bool) (n : nat)
    (reads writes : nat -> bool) (clock : nat -> Z) (round : nat)
    (u : Profiles.User) (store : Profiles.Store) (card : Profiles.Card) :
  reads round = true ->
  store (Profiles.uid u) <> None
  \/ (writes round = true /\ reads (S round) = true) ->
  exists store' shown,
    Profiles.fetchProfile ignoreUndefinedProperties (S (S n)) reads writes clock
      round (Some u) store card
    = Some (store',
            Profiles.mkCard (Some shown)
                            (Profiles.or_empty (Profiles.fullName shown)) false
                            (Profiles.toasts card))
    /\ store' (Profiles.uid u) = Some shown
    /\ (forall other, other <> Profiles.uid u -> store' other = store other)
    /\ match store (Profiles.uid u) with
       | Some old => shown = old
       | None =>
           shown = Profiles.mkProfile (Profiles.uid u)
                     (Some (Profiles.or_empty (Profiles.displayName u)))
                     (Some (Profiles.or_empty (Profiles.photoURL u)))
                     (Some "user") (clock round) (clock round)
       end.
Proof.
  intros Hr Hserved.
  destruct (store (Profiles.uid u)) as [old|] eqn:Hold.
  - exists store, old. cbn [Profiles.fetchProfile]. unfold Profiles.getProfile.
    rewrite Hr, Hold. auto.
  - destruct Hserved as [H|[Hw Hr']]; [contradiction|].
    set (written := Profiles.mkProfile (Profiles.uid u)
                      (Some (Profiles.or_empty (Profiles.displayName u)))
                      (Some (Profiles.or_empty (Profiles.photoURL u)))
                      (Some "user") (clock round) (clock round)).
    set (store1 := fun name => if String.eqb name (Profiles.uid u)
                               then Some written else store name).
    assert (Hwrite : Profiles.createOrUpdateProfile ignoreUndefinedProperties
                   (writes round) (clock round) (Profiles.uid u)
                   (Profiles.mkData
                      (Profiles.Value (Profiles.or_empty (Profiles.displayName u)))
                      (Profiles.Value (Profiles.or_empty (Profiles.photoURL u)))
                      (Profiles.Value "user"))
                   store = Some store1).
    { unfold Profiles.createOrUpdateProfile. cbv zeta. rewrite Hw, Hold. simpl.
      now rewrite orb_true_r. }
    assert (H1 : store1 (Profiles.uid u) = Some written).
    { unfold store1. now rewrite String.eqb_refl. }
    exists store1, written. cbn [Profiles.fetchProfile].
    unfold Profiles.getProfile. rewrite Hr, Hold, Hwrite, Hr', H1.
    split; [reflexivity|]. split; [reflexivity|]. split; [|reflexivity].
    intros other Ho. unfold store1. apply String.eqb_neq in Ho. now rewrite Ho.
Qed.

Lemma fetchProfile_shows_or_creates_witness :
  exists store' shown,
    Profiles.fetchProfile false 2 (always true) (always true) (fun _ => 7) 0
      (Some (Profiles.mkUser "u2" (Some "Bob") None)) store_one_profile
      (Profiles.mkCard None "" true [])
    = Some (store',
            Profiles.mkCard (Some shown)
                            (Profiles.or_empty (Profiles.fullName shown)) false [])
    /\ store' "u2" = Some shown
    /\ (forall other, other <> "u2" -> store' other = store_one_profile other)
    /\ match store_one_profile "u2" with
       | Some old => shown = old
       | None =>
           shown = Profiles.mkProfile "u2" (Some "Bob") (Some "") (Some "user") 7 7
       end.
Proof.
  apply (fetchProfile_shows_or_creates false 0 (always true) (always true)
           (fun _ => 7) 0 (Profiles.mkUser "u2" (Some "Bob") None)
           store_one_profile (Profiles.mkCard None "" true [])).
  - reflexivity.
  - right. split; reflexivity.
Defined.

(** X30: [fetchProfile] does not look at what the write returned.  For a
    signed-in user without a profile, while Firestore answers the reads and
    refuses the writes, [fetchProfile] keeps calling itself: however many
    calls are allowed, it has not ended. *)
Theorem fetchProfile_retries_without_end (ignoreUndefinedProperties : bool)
    (fuel : nat) (reads writes : nat -> bool) (clock : nat -> Z) (round : nat)
    (u : Profiles.User) (store : Profiles.Store) (card : Profiles.Card) :
  store (Profiles.uid u) = None ->
  (forall k, reads k = true) ->
  (forall k, writes k = false) ->
  Profiles.fetchProfile ignoreUndefinedProperties fuel reads writes clock round
    (Some u) store card = None.
Proof.
  intros Hnone Hr Hw. revert round.
  induction fuel as [|fuel IH]; intros round; [reflexivity|].
  cbn [Profiles.fetchProfile]. unfold Profiles.getProfile.
  rewrite Hr, Hnone. unfold Profiles.createOrUpdateProfile. rewrite Hw.
  simpl andb. cbv iota. now rewrite IH.
Qed.

Lemma fetchProfile_retries_without_end_witness :
  Profiles.fetchProfile false 50 (always true) (always false) (fun _ => 7) 0
    (Some (Profiles.mkUser "u2" (Some "Bob") None)) store_one_profile
    (Profiles.mkCard None "" true []) = None.
Proof.
  apply (fetchProfile_retries_without_end false 50 (always true) (always false)
           (fun _ => 7) 0 (Profiles.mkUser "u2" (Some "Bob") None)
           store_one_profile (Profiles.mkCard None "" true [])).
  - reflexivity.
  - reflexivity.
  - reflexivity.
Defined.

(** * Properties of the in-browser demonstration *)

Lemma mock_matching_In (e p : string) (contacts : list Mock.Contact) (c : Mock.Contact) :
  In c (Mock.matchingContacts e p contacts) -> In c contacts.
Proof.
  unfold Mock.matchingContacts. rewrite filter_In. tauto.
Qed.

Lemma mock_primaryOf_In (first : Mock.Contact) (others contacts : list Mock.Contact) :
  (forall c, In c (first :: others) -> In c contacts) ->
  In (Mock.primaryOf first others contacts) contacts.
Proof.
  intros H. unfold Mock.primaryOf.
  destruct (find Mock.is_primary (first :: others)) as [c|] eqn:Hf.
  - apply find_some in Hf. apply H. tauto.
  - destruct (find _ contacts) as [l|] eqn:Hl.
    + apply find_some in Hl. tauto.
    + apply H. now left.
Qed.

(** The contacts and the parts of the response after a submit that matched. *)
Lemma mock_handleIdentify_matched (now e p : string) (contacts : list Mock.Contact)
    (first : Mock.Contact) (others : list Mock.Contact) :
  Mock.matchingContacts e p contacts = first :: others ->
  let pc := Mock.primaryOf first others contacts in
  let rel := Mock.allRelatedContacts pc (first :: others) contacts in
  let E := spread_Set (filter_Boolean (map Mock.email rel)) in
  let P := spread_Set (filter_Boolean (map Mock.phoneNumber rel)) in
  let added :=
    if Mock.is_new e E || Mock.is_new p P
    then [Mock.mkContact (Z.of_nat (List.length contacts) + 1)
            (if Mock.is_new e E then Some e else None)
            (if Mock.is_new p P then Some p else None)
            (Some (Mock.id pc)) secondary now now None]
    else [] in
  Mock.handleIdentify now e p contacts
  = (contacts ++ added,
     Mock.mkResponse (Mock.id pc)
       (if Mock.is_new e E then E ++ [e] else E)
       (if Mock.is_new p P then P ++ [p] else P)
       (map Mock.id (filter Mock.is_secondary rel) ++ map Mock.id added)).
Proof.
  intros Hm. cbv zeta. unfold Mock.handleIdentify. rewrite Hm.
  destruct (_ || _) eqn:Hnew.
  - reflexivity.
  - rewrite !app_nil_r. apply orb_false_iff in Hnew. destruct Hnew as [-> ->].
    reflexivity.
Qed.

(** X23: the demonstration only ever appends: a submit leaves every
    contact it holds as it is and adds at most one, numbered one more than
    the number of contacts, a primary without link when nothing matched and
    else a secondary linked to the primary of the response. *)
Theorem mock_handleIdentify_appends (now e p : string) (contacts : list Mock.Contact) :
  exists added,
    fst (Mock.handleIdentify now e p contacts) = contacts ++ added
    /\ (List.length added <= 1)%nat
    /\ Forall (fun c =>
                 Mock.id c = Z.of_nat (List.length contacts) + 1
                 /\ (Mock.matchingContacts e p contacts = []
                     /\ Mock.linkPrecedence c = primary /\ Mock.linkedId c = None
                     \/ Mock.matchingContacts e p contacts <> []
                        /\ Mock.linkPrecedence c = secondary
                        /\ Mock.linkedId c
                           = Some (Mock.primaryContactId
                                     (snd (Mock.handleIdentify now e p contacts)))))
              added.
Proof.
  destruct (Mock.matchingContacts e p contacts) as [|first others] eqn:Hm.
  - unfold Mock.handleIdentify. rewrite Hm. eexists. split; [reflexivity|].
    split; [simpl; lia|]. constructor; [|constructor].
    split; [reflexivity|]. left. auto.
  - rewrite (mock_handleIdentify_matched now e p contacts first others Hm).
    cbv zeta. eexists. split; [reflexivity|]. simpl snd.
    destruct (_ || _); simpl; (split; [lia|]); constructor; [|constructor].
    split; [reflexivity|]. right. repeat split. discriminate.
Qed.

Lemma mock_is_new_false (x : string) (known : list string) :
  x <> "" -> Mock.is_new x known = false -> In x known.
Proof.
  intros Hx H. unfold Mock.is_new in H. apply String.eqb_neq in Hx.
  rewrite Hx in H. simpl in H. apply negb_false_iff in H. now apply includes_In.
Qed.

(** X24: the response of the demonstration always lists what was typed: a
    non-empty email is among [emails], a non-empty phone number among
    [phoneNumbers]. *)
Theorem mock_response_holds_the_request (now e p : string)
    (contacts : list Mock.Contact) :
  (e <> "" -> In e (Mock.emails (snd (Mock.handleIdentify now e p contacts))))
  /\ (p <> "" ->
      In p (Mock.phoneNumbers (snd (Mock.handleIdentify now e p contacts)))).
Proof.
  destruct (Mock.matchingContacts e p contacts) as [|first others] eqn:Hm.
  - unfold Mock.handleIdentify. rewrite Hm. simpl.
    split; intros H; apply String.eqb_neq in H; rewrite H; now left.
  - rewrite (mock_handleIdentify_matched now e p contacts first others Hm).
    cbv zeta. simpl. split; intros H.
    + destruct (Mock.is_new e _) eqn:He.
      * apply in_or_app. right. now left.
      * now apply mock_is_new_false.
    + destruct (Mock.is_new p _) eqn:Hp.
      * apply in_or_app. right. now left.
      * now apply mock_is_new_false.
Qed.

Lemma mock_response_holds_the_request_witness :
  ("new@example.com" <> "" ->
   In "new@example.com"
      (Mock.emails (snd (Mock.handleIdentify "t" "new@example.com" "1234567890"
                           Mock.initialContacts))))
  /\ ("1234567890" <> "" ->
      In "1234567890"
         (Mock.phoneNumbers (snd (Mock.handleIdentify "t" "new@example.com"
                                    "1234567890" Mock.initialContacts)))).
Proof.
  exact (mock_response_holds_the_request "t" "new@example.com" "1234567890"
           Mock.initialContacts).
Defined.

Lemma mock_numbered_bound (contacts : list Mock.Contact) (c : Mock.Contact) :
  mock_numbered contacts -> In c contacts ->
  1 <= Mock.id c <= Z.of_nat (List.length contacts).
Proof.
  intros Hn Hc. apply (in_map Mock.id) in Hc. rewrite Hn in Hc.
  apply in_map_iff in Hc. destruct Hc as (i & <- & Hi).
  apply in_seq in Hi. lia.
Qed.

Lemma mock_numbered_app (contacts : list Mock.Contact) (c : Mock.Contact) :
  mock_numbered contacts ->
  Mock.id c = Z.of_nat (List.length contacts) + 1 ->
  mock_numbered (contacts ++ [c]).
Proof.
  unfold mock_numbered. intros Hn Hc.
  rewrite length_app, map_app. simpl List.length.
  rewrite Nat.add_1_r, seq_S, map_app, Hn. simpl. now rewrite Hc.
Qed.

(** X25: a submit keeps the numbering of the demonstration's contacts and
    keeps every link inside it: if the contacts are numbered 1, 2, ... in
    order and every [linkedId] names one of them, the same holds for the
    contacts after the submit. *)
Theorem mock_handleIdentify_keeps_numbering (now e p : string)
    (contacts : list Mock.Contact) :
  mock_numbered contacts -> mock_links_inside contacts ->
  mock_numbered (fst (Mock.handleIdentify now e p contacts))
  /\ mock_links_inside (fst (Mock.handleIdentify now e p contacts)).
Proof.
  intros Hn Hl.
  assert (Hgrow : forall c, Mock.id c = Z.of_nat (List.length contacts) + 1 ->
                    (forall l, Mock.linkedId c = Some l ->
                               exists d, In d contacts /\ Mock.id d = l) ->
                    mock_numbered (contacts ++ [c])
                    /\ mock_links_inside (contacts ++ [c])).
  { intros c Hid Hlink. split; [now apply mock_numbered_app|].
    intros x l Hx Hxl. apply in_app_or in Hx.
    assert (Hd : exists d, In d contacts /\ Mock.id d = l).
    { destruct Hx as [Hx|[<-|[]]]; [now apply (Hl x)|now apply Hlink]. }
    destruct Hd as (d & Hd & E). exists d. split; [apply in_or_app; now left|exact E]. }
  destruct (Mock.matchingContacts e p contacts) as [|first others] eqn:Hm.
  - unfold Mock.handleIdentify. rewrite Hm. simpl fst.
    apply Hgrow; [reflexivity|]. intros l [=].
  - rewrite (mock_handleIdentify_matched now e p contacts first others Hm).
    cbv zeta. simpl fst. destruct (_ || _).
    + apply Hgrow; [reflexivity|]. intros l [= <-].
      eexists. split; [|reflexivity]. apply mock_primaryOf_In.
      intros c Hc. rewrite <- Hm in Hc. now apply mock_matching_In in Hc.
    + rewrite app_nil_r. auto.
Qed.

Lemma mock_handleIdentify_keeps_numbering_witness :
  mock_numbered (fst (Mock.handleIdentify "t" "new@example.com" "1234567890"
                        Mock.initialContacts))
  /\ mock_links_inside (fst (Mock.handleIdentify "t" "new@example.com" "1234567890"
                               Mock.initialContacts)).
Proof.
  apply (mock_handleIdentify_keeps_numbering "t" "new@example.com" "1234567890"
           Mock.initialContacts).
  - reflexivity.
  - intros c l Hc Hl. simpl in Hc. destruct Hc as [<-|[<-|[]]]; simpl in Hl;
      try discriminate.
    injection Hl as <-. eexists. split; [left; reflexivity|reflexivity].
Defined.

(** ** Submitting the same form again *)

Lemma Set_insert_app (seen xs ys : list string) :
  Set_insert seen (xs ++ ys) = Set_insert (Set_insert seen xs) ys.
Proof.
  revert seen. induction xs as [|x xs IH]; intros seen; simpl; [reflexivity|].
  apply IH.
Qed.

Lemma filter_Boolean_app (xs ys : list Text) :
  filter_Boolean (xs ++ ys) = filter_Boolean xs ++ filter_Boolean ys.
Proof.
  induction xs as [|v xs IH]; simpl; [reflexivity|].
  destruct v as [s|]; [|exact IH]. destruct (truthy (Some s)); simpl; now rewrite IH.
Qed.

(** The strings known after one more contact, which brings [x] exactly when
    [x] was new. *)
Lemma known_after_new_contact (x : string) (fields : list Text) :
  let known := spread_Set (filter_Boolean fields) in
  spread_Set (filter_Boolean
                (fields ++ [if Mock.is_new x known then Some x else None]))
  = (if Mock.is_new x known then known ++ [x] else known)
  /\ Mock.is_new x (if Mock.is_new x known then known ++ [x] else known) = false.
Proof.
  cbv zeta. unfold spread_Set at 1. rewrite filter_Boolean_app, Set_insert_app.
  fold (spread_Set (filter_Boolean fields)).
  set (known := spread_Set (filter_Boolean fields)).
  destruct (Mock.is_new x known) eqn:Hx.
  - unfold Mock.is_new in Hx. apply andb_true_iff in Hx. destruct Hx as [H1 H2].
    simpl. unfold truthy. rewrite H1. simpl.
    apply negb_true_iff in H2. rewrite H2. split; [reflexivity|].
    unfold Mock.is_new. rewrite H1. simpl. apply negb_false_iff.
    apply includes_In. apply in_or_app. right. now left.
  - simpl. auto.
Qed.

Lemma find_app_None {A : Type} (keep : A -> bool) (l l' : list A) :
  (forall x, In x l' -> keep x = false) ->
  find keep (l ++ l') = find keep l.
Proof.
  intros H. induction l as [|y l IH]; simpl.
  - induction l' as [|z l' IH']; [reflexivity|]. simpl.
    rewrite (H z) by now left. apply IH'. intros x Hx. apply H. now right.
  - destruct (keep y); [reflexivity|exact IH].
Qed.

Lemma filter_none {A : Type} (keep : A -> bool) (l : list A) :
  (forall x, In x l -> keep x = false) -> filter keep l = [].
Proof.
  intros H. induction l as [|x l IH]; simpl; [reflexivity|].
  rewrite (H x) by now left. apply IH. intros y Hy. apply H. now right.
Qed.

Section MockRepeat.
Variables (contacts : list Mock.Contact) (N : Mock.Contact).
Hypothesis Hnum : mock_numbered contacts.
Hypothesis Hlinks : mock_links_inside contacts.
Hypothesis HN : Mock.id N = Z.of_nat (List.length contacts) + 1.

Lemma mock_old_id_differs (c : Mock.Contact) :
  In c contacts -> Z.eqb (Mock.id N) (Mock.id c) = false.
Proof.
  intros Hc. apply Z.eqb_neq. pose proof (mock_numbered_bound _ _ Hnum Hc). lia.
Qed.

Lemma mock_old_link_differs (c : Mock.Contact) :
  In c contacts -> Mock.id_is N (Mock.linkedId c) = false.
Proof.
  intros Hc. unfold Mock.id_is. destruct (Mock.linkedId c) as [l|] eqn:El;
    [|reflexivity].
  destruct (Hlinks c l Hc El) as (d & Hd & <-). now apply mock_old_id_differs.
Qed.

Lemma mock_primaryOf_after_secondary (first : Mock.Contact)
    (others : list Mock.Contact) :
  In first contacts -> Mock.linkPrecedence N = secondary ->
  Mock.primaryOf first (others ++ [N]) (contacts ++ [N])
  = Mock.primaryOf first others contacts.
Proof.
  intros Hf Hs. unfold Mock.primaryOf.
  change (first :: others ++ [N]) with ((first :: others) ++ [N]).
  rewrite (find_app_None Mock.is_primary).
  - destruct (find Mock.is_primary (first :: others)); [reflexivity|].
    rewrite (find_app_None (fun c => Mock.id_is c (Mock.linkedId first))).
    + reflexivity.
    + intros x [<-|[]]. now apply mock_old_link_differs.
  - intros x [<-|[]]. unfold Mock.is_primary. now rewrite Hs.
Qed.

Lemma mock_related_after_secondary (pc : Mock.Contact) (matching : list Mock.Contact) :
  Mock.linkedId N = Some (Mock.id pc) ->
  Mock.allRelatedContacts pc (matching ++ [N]) (contacts ++ [N])
  = Mock.allRelatedContacts pc matching contacts ++ [N].
Proof.
  intros Hl. unfold Mock.allRelatedContacts. rewrite filter_app. f_equal.
  - apply filter_ext_in. intros c Hc. rewrite existsb_app. simpl.
    rewrite (mock_old_id_differs c Hc). now rewrite !orb_false_r.
  - simpl. rewrite Hl. unfold Mock.id_is. rewrite Z.eqb_refl.
    now rewrite orb_true_r.
Qed.

Lemma mock_related_of_new_primary :
  Mock.allRelatedContacts N [N] (contacts ++ [N]) = [N].
Proof.
  unfold Mock.allRelatedContacts. rewrite filter_app.
  replace (filter _ contacts) with (@nil Mock.Contact).
  - simpl. now rewrite Z.eqb_refl.
  - symmetry. apply filter_none. intros c Hc.
    rewrite Z.eqb_sym, (mock_old_id_differs c Hc).
    rewrite (mock_old_link_differs c Hc). simpl.
    rewrite (mock_old_id_differs c Hc). simpl. apply andb_false_r.
Qed.

End MockRepeat.

Lemma mock_typed_equals_own (x : string) : x <> "" -> Mock.typed_equals x (Some x) = true.
Proof.
  intros H. unfold Mock.typed_equals. apply String.eqb_neq in H.
  now rewrite H, String.eqb_refl.
Qed.

Lemma mock_is_new_nonempty (x : string) (known : list string) :
  Mock.is_new x known = true -> x <> "".
Proof.
  unfold Mock.is_new. intros H. apply andb_true_iff in H. destruct H as [H _].
  apply negb_true_iff in H. now apply String.eqb_neq.
Qed.

(** X27: with the contacts numbered in order and every link inside, a form
    with at least one field filled in, submitted a second time, changes
    nothing: the contacts stay as the first submit left them and the
    response is the response of the first submit. *)
Theorem mock_repeated_submit_changes_nothing (now later e p : string)
    (contacts : list Mock.Contact) :
  mock_numbered contacts -> mock_links_inside contacts ->
  e <> "" \/ p <> "" ->
  Mock.handleIdentify later e p (fst (Mock.handleIdentify now e p contacts))
  = Mock.handleIdentify now e p contacts.
Proof.
  intros Hn Hl Hfilled.
  destruct (Mock.matchingContacts e p contacts) as [|first others] eqn:Hm.
  - (* nothing matched: the new primary is the only match of the second submit *)
    unfold Mock.handleIdentify at 2 3. rewrite Hm. simpl fst.
    set (N := Mock.mkContact _ _ _ _ _ _ _ _).
    assert (HmN : Mock.matchingContacts e p (contacts ++ [N]) = [N]).
    { unfold Mock.matchingContacts in *. rewrite filter_app, Hm. simpl.
      replace (_ || _) with true; [reflexivity|]. symmetry. apply orb_true_iff.
      unfold Mock.or_undefined.
      destruct Hfilled as [H|H]; [left|right]; pose proof H as H';
        apply String.eqb_neq in H'; rewrite H'; now apply mock_typed_equals_own. }
    rewrite (mock_handleIdentify_matched later e p (contacts ++ [N]) N [] HmN).
    cbv zeta.
    replace (Mock.primaryOf N [] (contacts ++ [N])) with N by reflexivity.
    rewrite (mock_related_of_new_primary contacts N Hn Hl eq_refl).
    subst N. simpl. unfold Mock.or_undefined, Mock.is_new, spread_Set.
    destruct (String.eqb e "") eqn:Ee, (String.eqb p "") eqn:Ep; simpl;
      unfold truthy, includes; rewrite ?Ee, ?Ep; simpl;
      rewrite ?String.eqb_refl; simpl; rewrite ?app_nil_r; reflexivity.
  - rewrite (mock_handleIdentify_matched now e p contacts first others Hm).
    cbv zeta. simpl fst.
    set (pc := Mock.primaryOf first others contacts).
    set (rel := Mock.allRelatedContacts pc (first :: others) contacts).
    set (E := spread_Set (filter_Boolean (map Mock.email rel))).
    set (P := spread_Set (filter_Boolean (map Mock.phoneNumber rel))).
    destruct (Mock.is_new e E || Mock.is_new p P) eqn:Hnew.
    + set (N := Mock.mkContact _ _ _ _ _ _ _ _).
      assert (Hfirst : In first contacts).
      { apply (mock_matching_In e p). rewrite Hm. now left. }
      assert (HmN : Mock.matchingContacts e p (contacts ++ [N])
                    = first :: (others ++ [N])).
      { unfold Mock.matchingContacts in *. rewrite filter_app, Hm. simpl.
        replace (_ || _) with true; [reflexivity|]. symmetry.
        apply orb_true_iff in Hnew. apply orb_true_iff.
        destruct Hnew as [H|H]; [left|right]; rewrite H;
          apply mock_typed_equals_own; now apply mock_is_new_nonempty in H. }
      rewrite (mock_handleIdentify_matched later e p (contacts ++ [N]) first
                 (others ++ [N]) HmN).
      cbv zeta.
      rewrite (mock_primaryOf_after_secondary contacts N Hn Hl eq_refl first others
                 Hfirst eq_refl).
      fold pc.
      change (first :: others ++ [N]) with ((first :: others) ++ [N]).
      rewrite (mock_related_after_secondary contacts N Hn eq_refl pc (first :: others)
                 eq_refl).
      fold rel. rewrite !map_app. simpl map.
      destruct (known_after_new_contact e (map Mock.email rel)) as [HE1 HE2].
      destruct (known_after_new_contact p (map Mock.phoneNumber rel)) as [HP1 HP2].
      cbv zeta in HE1, HE2, HP1, HP2. fold E in HE1, HE2. fold P in HP1, HP2.
      set (E' := spread_Set (filter_Boolean (map Mock.email rel ++ _))).
      set (P' := spread_Set (filter_Boolean (map Mock.phoneNumber rel ++ _))).
      assert (HE' : E' = if Mock.is_new e E then E ++ [e] else E) by exact HE1.
      assert (HP' : P' = if Mock.is_new p P then P ++ [p] else P) by exact HP1.
      clearbody E' P'. subst E' P'. rewrite HE2, HP2. simpl.
      rewrite filter_app, map_app. simpl.
      f_equal; [apply app_nil_r|f_equal; apply app_nil_r].
    + rewrite app_nil_r.
      rewrite (mock_handleIdentify_matched later e p contacts first others Hm).
      cbv zeta. fold pc. fold rel. fold E. fold P. rewrite Hnew.
      apply orb_false_iff in Hnew. destruct Hnew as [-> ->]. simpl.
      now rewrite !app_nil_r.
Qed.

Lemma mock_repeated_submit_changes_nothing_witness :
  Mock.handleIdentify "t2" "new@example.com" "1234567890"
    (fst (Mock.handleIdentify "t1" "new@example.com" "1234567890"
            Mock.initialContacts))
  = Mock.handleIdentify "t1" "new@example.com" "1234567890" Mock.initialContacts.
Proof.
  apply (mock_repeated_submit_changes_nothing "t1" "t2" "new@example.com"
           "1234567890" Mock.initialContacts).
  - reflexivity.
  - intros c l Hc Hl. simpl in Hc. destruct Hc as [<-|[<-|[]]]; simpl in Hl;
      try discriminate.
    injection Hl as <-. eexists. split; [left; reflexivity|reflexivity].
  - left. discriminate.
Defined.
